(** * Hyperliquid portfolio tracker: the PnL pipeline of [app.py]

    A shallow embedding of the backend functions [fetch_hyperliquid_data] and
    [process_data] and of the calculations the page runs on their result
    (totals, win rate, per-day aggregation, cumulative net).

    Conventions of the embedding.
    - A pandas frame is the list of its rows, a column is the list of one
      field.  A float column is a list of [option Qc]: [None] is NaN, and a
      present value is an exact rational: sums of amounts are exact, which
      is what binary64 computes when the amounts are whole numbers of a
      total size below 2^53, and differs from it by rounding otherwise.
      Statements that compare two orders of summation carry that condition.
    - The win rate is also given as the interpreter computes it, in
      binary64 ([win_rate_b64]), next to its exact value ([win_rate]).
    - A [datetime.date] is its day number since 1970-01-01 (a [Z]); [NaT] is
      [None].
    - HTTP is an oracle: the reply of each of the two POST requests is an
      input of the fetch function, and [st.error] / [st.warning] calls are
      collected in a message list. *)

From Stdlib Require Import QArith Qcanon Ascii.
From Stdlib Require Import PrimFloat Uint63.
From stdpp Require Import base numbers option strings sorting list.

Local Open Scope Z_scope.

(** ** Raw ledger events (the JSON the service answers) *)

(** A JSON scalar as it sits in an object column of the raw frame. *)
Inductive raw :=
  | RNull
  | RNum (q : Qc)
  | RStr (s : string).

(** One [userFills] object.  [time] is a JSON integer (milliseconds since the
    epoch) or null; a key absent from one object reads as null once the list
    is turned into a frame. *)
Record RawFill := {
  raw_time : option Z;
  raw_coin : raw;
  raw_dir : raw;
  raw_px : raw;
  raw_sz : raw;
  raw_closedPnl : raw;
  raw_fee : raw;
  raw_startPosition : raw
}.

(** One [userFunding] object. *)
Record RawFunding := {
  rawf_time : option Z;
  rawf_coin : raw;
  rawf_usdc : raw
}.

(** ** Normalized frames *)

(** A row of [df_fills] after [process_data]. *)
Record Fill := {
  fill_time : option Z;
  fill_date : option Z;
  fill_coin : raw;
  fill_dir : raw;
  fill_px : option Qc;
  fill_sz : option Qc;
  fill_closedPnl : option Qc;
  fill_fee : option Qc;
  fill_startPosition : option Qc
}.

(** A row of [df_funding] after [process_data]. *)
Record Funding := {
  fund_time : option Z;
  fund_date : option Z;
  fund_coin : raw;
  fund_usdc : option Qc
}.

(** ** pandas primitives used by the page *)

(** [bool(x)] of a JSON list or null: [None] and [[]] are falsy. *)
Definition truthy {A} (x : option (list A)) : bool :=
  match x with
  | Some (_ :: _) => true
  | _ => false
  end.

(** [df.empty] *)
Definition empty {A} (df : list A) : bool :=
  match df with
  | [] => true
  | _ :: _ => false
  end.

(** [Series.sum()]: NaN entries are skipped, the empty sum is 0. *)
Definition series_sum (s : list (option Qc)) : Qc :=
  foldr Qcplus 0%Qc (omap id s).

(** [Series.cumsum()] on a column without NaN. *)
Fixpoint cumsum_from (acc : Qc) (s : list Qc) : list Qc :=
  match s with
  | [] => []
  | x :: s' => (acc + x)%Qc :: cumsum_from (acc + x)%Qc s'
  end.

Definition cumsum (s : list Qc) : list Qc := cumsum_from 0%Qc s.

(** [pd.to_datetime(ms, unit='ms').dt.date]: the calendar day of an instant. *)
Definition ms_per_day : Z := 86400000.

Definition date_of_ms (ms : Z) : Z := ms / ms_per_day.

(** Group keys of [groupby('date')]: the distinct dates in ascending order;
    rows whose key is NaT are dropped. *)
Definition group_keys (dates : list (option Z)) : list Z :=
  merge_sort Z.le (remove_dups (omap id dates)).

(** ** [process_data] *)

Section Normalizer.

(** pandas' reading of a string as a number ([None]: not a number). *)
Variable parse_float : string → option Qc.

(** [pd.to_numeric(x, errors='coerce')] on one entry. *)
Definition to_numeric (v : raw) : option Qc :=
  match v with
  | RNull => None
  | RNum q => Some q
  | RStr s => parse_float s
  end.

Definition normalize_fill (r : RawFill) : Fill :=
  {| fill_time := raw_time r;
     fill_date := date_of_ms <$> raw_time r;
     fill_coin := raw_coin r;
     fill_dir := raw_dir r;
     fill_px := to_numeric (raw_px r);
     fill_sz := to_numeric (raw_sz r);
     fill_closedPnl := to_numeric (raw_closedPnl r);
     fill_fee := to_numeric (raw_fee r);
     fill_startPosition := to_numeric (raw_startPosition r) |}.

Definition normalize_funding (r : RawFunding) : Funding :=
  {| fund_time := rawf_time r;
     fund_date := date_of_ms <$> rawf_time r;
     fund_coin := rawf_coin r;
     fund_usdc := to_numeric (rawf_usdc r) |}.

Definition process_data (fills : option (list RawFill))
    (funding : option (list RawFunding)) : list Fill * list Funding :=
  if negb (truthy fills) then ([], [])
  else
    let df_fills := normalize_fill <$> default [] fills in
    let df_funding :=
      if truthy funding then normalize_funding <$> default [] funding
      else [] in
    (df_fills, df_funding).

End Normalizer.

(** ** Calculations: the summary metrics *)

Definition total_closed_pnl (df_fills : list Fill) : Qc :=
  series_sum (fill_closedPnl <$> df_fills).

Definition total_trading_fees (df_fills : list Fill) : Qc :=
  series_sum (fill_fee <$> df_fills).

Definition total_funding (df_funding : list Funding) : Qc :=
  if negb (empty df_funding) then series_sum (fund_usdc <$> df_funding)
  else 0%Qc.

Definition net_pnl (df_fills : list Fill) (df_funding : list Funding) : Qc :=
  (total_closed_pnl df_fills - total_trading_fees df_fills
   + total_funding df_funding)%Qc.

(** Elementwise [x != 0] on a float column: NaN compares unequal to 0. *)
Definition ne0 (x : option Qc) : Prop := x ≠ Some 0%Qc.

(** Elementwise [x > 0] on a float column: NaN is not greater than 0. *)
Definition gt0 (x : option Qc) : Prop :=
  match x with
  | Some q => (0 < q)%Qc
  | None => False
  end.

Global Instance ne0_dec x : Decision (ne0 x).
Proof. unfold ne0. apply _. Defined.

Global Instance gt0_dec x : Decision (gt0 x).
Proof. destruct x; simpl; apply _. Defined.

Definition closed_trades (df_fills : list Fill) : list Fill :=
  filter (λ f, ne0 (fill_closedPnl f)) df_fills.

Definition wins (df_fills : list Fill) : list Fill :=
  filter (λ f, gt0 (fill_closedPnl f)) (closed_trades df_fills).

Definition Qc_of_nat (n : nat) : Qc := Qc_of_Z (Z.of_nat n).

Definition win_rate (df_fills : list Fill) : Qc :=
  if bool_decide (0 < length (closed_trades df_fills))%nat then
    (Qc_of_nat (length (wins df_fills))
     / Qc_of_nat (length (closed_trades df_fills)) * Qc_of_Z 100)%Qc
  else 0%Qc.

(** The win rate as the interpreter computes it.  [a / b] on two [int]s
    raises [ZeroDivisionError] for [b = 0] and is the binary64 quotient
    otherwise (the counts convert exactly: the service sends at most 2000
    fills, far below 2^53); the product with 100 is rounded again. *)
Definition float_of_count (n : nat) : float :=
  PrimFloat.of_uint63 (Uint63.of_Z (Z.of_nat n)).

Definition truediv (a b : nat) : option float :=
  match b with
  | O => None
  | S _ => Some (PrimFloat.div (float_of_count a) (float_of_count b))
  end.

Definition win_rate_b64 (df_fills : list Fill) : option float :=
  if bool_decide (0 < length (closed_trades df_fills))%nat then
    (λ quotient, PrimFloat.mul quotient 100%float)
    <$> truediv (length (wins df_fills)) (length (closed_trades df_fills))
  else Some 0%float.

Record Metrics := {
  metric_net_pnl : Qc;
  metric_win_rate : Qc;
  metric_trading_fees : Qc;
  metric_funding : Qc
}.

Definition metrics (df_fills : list Fill) (df_funding : list Funding)
    : Metrics :=
  {| metric_net_pnl := net_pnl df_fills df_funding;
     metric_win_rate := win_rate df_fills;
     metric_trading_fees := total_trading_fees df_fills;
     metric_funding := total_funding df_funding |}.

(** ** Calculations: the chart data *)

(** A row of [daily_fills]: [groupby('date')[['closedPnl','fee']].sum()]. *)
Record DailyFills := {
  dfill_date : Z;
  dfill_closedPnl : Qc;
  dfill_fee : Qc
}.

(** A row of [daily_funding]: [groupby('date')[['usdc']].sum()]. *)
Record DailyFunding := {
  dfund_date : Z;
  dfund_usdc : Qc
}.

Definition daily_fills (df_fills : list Fill) : list DailyFills :=
  (λ d,
     let g := filter (λ f, fill_date f = Some d) df_fills in
     {| dfill_date := d;
        dfill_closedPnl := series_sum (fill_closedPnl <$> g);
        dfill_fee := series_sum (fill_fee <$> g) |})
  <$> group_keys (fill_date <$> df_fills).

Definition daily_funding (df_funding : list Funding) : list DailyFunding :=
  (λ d,
     let g := filter (λ p, fund_date p = Some d) df_funding in
     {| dfund_date := d;
        dfund_usdc := series_sum (fund_usdc <$> g) |})
  <$> group_keys (fund_date <$> df_funding).

(** A row of [pd.merge(left, right, on='date', how='outer')]: a side without
    the key leaves its columns missing. *)
Record Merged := {
  merged_date : Z;
  merged_closedPnl : option Qc;
  merged_fee : option Qc;
  merged_usdc : option Qc
}.

Definition left_only (l : DailyFills) : Merged :=
  {| merged_date := dfill_date l;
     merged_closedPnl := Some (dfill_closedPnl l);
     merged_fee := Some (dfill_fee l);
     merged_usdc := None |}.

Definition right_only (r : DailyFunding) : Merged :=
  {| merged_date := dfund_date r;
     merged_closedPnl := None;
     merged_fee := None;
     merged_usdc := Some (dfund_usdc r) |}.

Definition both (l : DailyFills) (r : DailyFunding) : Merged :=
  {| merged_date := dfill_date l;
     merged_closedPnl := Some (dfill_closedPnl l);
     merged_fee := Some (dfill_fee l);
     merged_usdc := Some (dfund_usdc r) |}.

(** The outer join: keys are the union of both key columns in ascending
    order; under one key every left row meets every right row. *)
Definition merge_outer (left : list DailyFills) (right : list DailyFunding)
    : list Merged :=
  d ← merge_sort Z.le
         (remove_dups ((dfill_date <$> left) ++ (dfund_date <$> right)));
  let ls := filter (λ l, dfill_date l = d) left in
  let rs := filter (λ r, dfund_date r = d) right in
  match ls, rs with
  | [], _ => right_only <$> rs
  | _, [] => left_only <$> ls
  | _, _ => l ← ls; r ← rs; [both l r]
  end.

(** A row of [daily_combined] before the derived columns. *)
Record DayRow := {
  day_date : Z;
  day_closedPnl : Qc;
  day_fee : Qc;
  day_usdc : Qc
}.

(** [.fillna(0)] on a merged row. *)
Definition fillna0 (m : Merged) : DayRow :=
  {| day_date := merged_date m;
     day_closedPnl := default 0%Qc (merged_closedPnl m);
     day_fee := default 0%Qc (merged_fee m);
     day_usdc := default 0%Qc (merged_usdc m) |}.

(** [daily_combined = daily_fills; daily_combined['usdc'] = 0] *)
Definition usdc0 (l : DailyFills) : DayRow :=
  {| day_date := dfill_date l;
     day_closedPnl := dfill_closedPnl l;
     day_fee := dfill_fee l;
     day_usdc := 0%Qc |}.

Definition joined (df_fills : list Fill) (df_funding : list Funding)
    : list DayRow :=
  if negb (empty df_funding) then
    fillna0 <$> merge_outer (daily_fills df_fills) (daily_funding df_funding)
  else usdc0 <$> daily_fills df_fills.

(** The value written to the column [daily_net_pnl]. *)
Definition day_net (r : DayRow) : Qc :=
  (day_closedPnl r - day_fee r + day_usdc r)%Qc.

(** The order of [sort_values('date')] on rows carrying their daily net. *)
Definition by_date (a b : DayRow * Qc) : Prop := day_date a.1 ≤ day_date b.1.

Global Instance by_date_dec : RelDecision by_date.
Proof. intros a b. unfold by_date. apply _. Defined.

(** A finished row of [daily_combined]. *)
Record Daily := {
  date : Z;
  closedPnl : Qc;
  fee : Qc;
  usdc : Qc;
  daily_net_pnl : Qc;
  cumulative_pnl : Qc
}.

Definition finish (p : DayRow * Qc) (c : Qc) : Daily :=
  {| date := day_date p.1;
     closedPnl := day_closedPnl p.1;
     fee := day_fee p.1;
     usdc := day_usdc p.1;
     daily_net_pnl := p.2;
     cumulative_pnl := c |}.

Definition daily_combined (df_fills : list Fill) (df_funding : list Funding)
    : list Daily :=
  let with_net := (λ r, (r, day_net r)) <$> joined df_fills df_funding in
  let sorted := merge_sort by_date with_net in
  zip_with finish sorted (cumsum (snd <$> sorted)).

(** ** The data source client *)

(** What [r.json()] does on a reply with status 200. *)
Inductive decoded (A : Type) :=
  | BadJson (e : string)
  | Json (v : option (list A)).
Arguments BadJson {A} e.
Arguments Json {A} v.

(** What one [requests.post] does. *)
Inductive reply (A : Type) :=
  | Raised (e : string)
  | Response (status_code : Z) (body : decoded A).
Arguments Raised {A} e.
Arguments Response {A} status_code body.

(** The ledger service: the answer to the [userFills] request of a user and
    to the [userFunding] request of a user from a start time. *)
Record transport := {
  post_userFills : string → reply RawFill;
  post_userFunding : string → Z → reply RawFunding
}.

Inductive message :=
  | st_error (text : string)
  | st_warning (text : string).

Definition fetched : Type :=
  list message * (option (list RawFill) * option (list RawFunding)).

Definition connection_error (e : string) : fetched :=
  ([st_error ("Connection Error: " +:+ e)], (None, None)).

Definition fetch_hyperliquid_data (net : transport) (now_ms : Z)
    (address : string) : fetched :=
  let start_time := now_ms - 180 * ms_per_day in
  match post_userFills net address with
  | Raised e => connection_error e
  | Response status_fills body_fills =>
    match post_userFunding net address start_time with
    | Raised e => connection_error e
    | Response status_funding body_funding =>
      if bool_decide (status_fills ≠ 200) || bool_decide (status_funding ≠ 200)
      then ([st_error "API Error: Could not fetch data."], (None, None))
      else
        match body_fills with
        | BadJson e => connection_error e
        | Json fills_data =>
          match body_funding with
          | BadJson e => connection_error e
          | Json funding_data => ([], (fills_data, funding_data))
          end
        end
    end
  end.

(** ** The page *)

(** What the page shows after a load: the metrics and the daily table, or
    nothing but messages.  The messages are the [st.error] and [st.warning]
    calls of the run, in order. *)
Record page := {
  messages : list message;
  shown : option (Metrics * list Daily)
}.

Section Page.

Variable parse_float : string → option Qc.

(** The body of [if st.session_state.get('data_loaded')] from the fetched
    pair on. *)
Definition render (raw_fills : option (list RawFill))
    (raw_funding : option (list RawFunding)) : page :=
  if truthy raw_fills then
    let '(df_fills, df_funding) :=
      process_data parse_float raw_fills raw_funding in
    let daily := daily_combined df_fills df_funding in
    {| messages :=
         if negb (empty daily) then []
         else [st_warning "No PnL history found."];
       shown := Some (metrics df_fills df_funding, daily) |}
  else
    {| messages := [st_warning "No data found for this address."];
       shown := None |}.

Definition load (net : transport) (now_ms : Z) (address : string) : page :=
  let '(errors, (raw_fills, raw_funding)) :=
    fetch_hyperliquid_data net now_ms address in
  let p := render raw_fills raw_funding in
  {| messages := errors ++ messages p; shown := shown p |}.

End Page.

(** ** The tabs *)

(** The order of [sort_values('date', ascending=False)]. *)
Definition by_date_desc (a b : Daily) : Prop := date b ≤ date a.

Global Instance by_date_desc_dec : RelDecision by_date_desc.
Proof. intros a b. unfold by_date_desc. apply _. Defined.

(** [with tab2:]: the bars of [daily_net_pnl] over [date] and the daily
    breakdown, latest day first; nothing for an empty frame. *)
Definition tab2 (daily_combined : list Daily)
    : option (list (Z * Qc) * list Daily) :=
  if negb (empty daily_combined) then
    Some ((λ r, (date r, daily_net_pnl r)) <$> daily_combined,
          merge_sort by_date_desc daily_combined)
  else None.

(** A row of [display_df]: the seven columns kept, four of them renamed. *)
Record TradeRow := {
  log_time : option Z;
  log_coin : raw;
  Direction : raw;
  Price : option Qc;
  Size : option Qc;
  PnL : option Qc;
  log_fee : option Qc
}.

Definition display_df (df_fills : list Fill) : list TradeRow :=
  (λ f,
     {| log_time := fill_time f;
        log_coin := fill_coin f;
        Direction := fill_dir f;
        Price := fill_px f;
        Size := fill_sz f;
        PnL := fill_closedPnl f;
        log_fee := fill_fee f |})
  <$> df_fills.

(** Elementwise [x < 0] on a float column: NaN is not less than 0. *)
Definition lt0 (x : option Qc) : Prop :=
  match x with
  | Some q => (q < 0)%Qc
  | None => False
  end.

Global Instance lt0_dec x : Decision (lt0 x).
Proof. destruct x; simpl; apply _. Defined.

(** The style of a [PnL] cell. *)
Definition pnl_style (x : option Qc) : string :=
  if decide (gt0 x) then "color: green"
  else if decide (lt0 x) then "color: red"
  else "color: gray".

(** [with tab3:]: the trade log, every row with the style of its [PnL]. *)
Definition tab3 (df_fills : list Fill) : list (TradeRow * string) :=
  (λ r, (r, pnl_style (PnL r))) <$> display_df df_fills.

(** ** The sidebar and the script *)

(** The two keys the script keeps in [st.session_state]: [data_loaded]
    (absent reads as false through [.get]) and [address] (absent: [None]). *)
Record session_state := {
  ss_data_loaded : bool;
  ss_address : option string
}.

Definition fresh_session : session_state :=
  {| ss_data_loaded := false; ss_address := None |}.

(** [with st.sidebar:]: the text typed in the address box, one [ascii] per
    character, and whether "Load Data" was pressed in this run. *)
Definition sidebar (state : session_state) (wallet_address : string)
    (pressed : bool) : session_state * list message :=
  if pressed then
    if bool_decide (String.length wallet_address < 42)%nat then
      (state, [st_error "Invalid address format."])
    else
      ({| ss_data_loaded := true; ss_address := Some wallet_address |}, [])
  else (state, []).

(** One run of the script ends with a page, or with the [KeyError] of
    reading a key that [st.session_state] does not hold. *)
Inductive outcome :=
  | KeyError (key : string)
  | Page (p : page).

Definition script (parse_float : string → option Qc) (net : transport)
    (now_ms : Z) (state : session_state) (wallet_address : string)
    (pressed : bool) : session_state * outcome :=
  let '(state', sidebar_messages) := sidebar state wallet_address pressed in
  if ss_data_loaded state' then
    match ss_address state' with
    | None => (state', KeyError "address")
    | Some address =>
      let p := load parse_float net now_ms address in
      (state',
       Page {| messages := sidebar_messages ++ messages p; shown := shown p |})
    end
  else (state', Page {| messages := sidebar_messages; shown := None |}).

(** ** A reader of plain decimals, to run the pipeline on examples *)

Definition digit (c : Ascii.ascii) : option Z :=
  let n := Z.of_N (Ascii.N_of_ascii c) - 48 in
  if bool_decide (0 ≤ n ≤ 9) then Some n else None.

Fixpoint read_digits (s : string) (num : Z) (den : positive)
    (frac seen : bool) : option Qc :=
  match s with
  | EmptyString => if seen then Some (Q2Qc (num # den)) else None
  | String c s' =>
    if bool_decide (c = "."%char) then
      if frac then None else read_digits s' num den true seen
    else
      match digit c with
      | Some d =>
        read_digits s' (10 * num + d) (if frac then 10 * den else den)%positive
          frac true
      | None => None
      end
  end.

Definition parse_decimal (s : string) : option Qc :=
  match s with
  | String "-"%char s' => Qcopp <$> read_digits s' 0 1 false false
  | _ => read_digits s 0 1 false false
  end.

(** * Definitions used in the statements *)

(** ** The aggregate, read off the two streams *)

(** The plain sum of a column without NaN. *)
Definition Qc_sum (s : list Qc) : Qc := foldr Qcplus 0%Qc s.

(** The fills, and the funding payments, of one calendar day. *)
Definition fills_on (df_fills : list Fill) (d : Z) : list Fill :=
  filter (λ f, fill_date f = Some d) df_fills.

Definition funding_on (df_funding : list Funding) (d : Z) : list Funding :=
  filter (λ p, fund_date p = Some d) df_funding.

(** The joined row of a day, written from the two streams directly. *)
Definition day_of (df_fills : list Fill) (df_funding : list Funding) (d : Z)
    : DayRow :=
  {| day_date := d;
     day_closedPnl := series_sum (fill_closedPnl <$> fills_on df_fills d);
     day_fee := series_sum (fill_fee <$> fills_on df_fills d);
     day_usdc := series_sum (fund_usdc <$> funding_on df_funding d) |}.

(** The key column of the joined frame. *)
Definition joined_keys (df_fills : list Fill) (df_funding : list Funding)
    : list Z :=
  if negb (empty df_funding) then
    merge_sort Z.le
      (remove_dups (group_keys (fill_date <$> df_fills)
                    ++ group_keys (fund_date <$> df_funding)))
  else group_keys (fill_date <$> df_fills).

(** [daily_combined] after [sort_values('date')], before [cumulative_pnl]. *)
Definition sorted_rows (F : list Fill) (G : list Funding)
    : list (DayRow * Qc) :=
  merge_sort by_date ((λ r, (r, day_net r)) <$> joined F G).

(** ** Worked inputs *)

(** A present cell holding an integer. *)
Definition num (n : Z) : option Qc := Some (Qc_of_Z n).

(** A fill of the ledger with a closed PnL and a fee, as the service sends
    them (decimal strings), at an instant. *)
Definition raw_fill (ms : Z) (pnl fee : string) : RawFill :=
  {| raw_time := Some ms;
     raw_coin := RStr "ETH";
     raw_dir := RStr "Close Long";
     raw_px := RStr "2250.5";
     raw_sz := RStr "0.4";
     raw_closedPnl := RStr pnl;
     raw_fee := RStr fee;
     raw_startPosition := RStr "0.4" |}.

(** The same fill with a null [time]. *)
Definition raw_fill_undated (pnl fee : string) : RawFill :=
  {| raw_time := None;
     raw_coin := RStr "ETH";
     raw_dir := RStr "Close Long";
     raw_px := RStr "2250.5";
     raw_sz := RStr "0.4";
     raw_closedPnl := RStr pnl;
     raw_fee := RStr fee;
     raw_startPosition := RStr "0.4" |}.

Definition raw_funding (ms : Z) (amount : string) : RawFunding :=
  {| rawf_time := Some ms; rawf_coin := RStr "ETH"; rawf_usdc := RStr amount |}.

(** 2024-01-01 and 2024-01-02, 00:00 UTC, in milliseconds. *)
Definition jan1 : Z := 1704067200000.
Definition jan2 : Z := 1704153600000.

(** Scenario A of the specification. *)
Definition scenario_A_fills : list RawFill :=
  [raw_fill jan1 "100" "1"; raw_fill jan2 "-50" "1"].

Definition scenario_A_funding : list RawFunding := [raw_funding jan1 "5"].

(** 2024-01-03, 00:00 UTC, and the fills of Scenario A with funding on the
    first day and on that third day, a day without fills. *)
Definition jan3 : Z := 1704240000000.

Definition funding_late : list RawFunding :=
  [raw_funding jan1 "5"; raw_funding jan3 "2"].

Definition scenario_late : list Fill * list Funding :=
  process_data parse_decimal (Some scenario_A_fills) (Some funding_late).

Definition scenario_A : list Fill * list Funding :=
  process_data parse_decimal (Some scenario_A_fills) (Some scenario_A_funding).

Definition A_fills : list Fill := scenario_A.1.
Definition A_funding : list Funding := scenario_A.2.

(** The columns of the chart: date, daily net, cumulative net. *)
Definition chart (rows : list Daily) : list (Z * Qc * Qc) :=
  (λ r, (date r, daily_net_pnl r, cumulative_pnl r)) <$> rows.

Global Instance Daily_eq_dec : EqDecision Daily.
Proof. solve_decision. Defined.

(** ** Words of the specification *)

(** A row all of whose numeric fields were read. *)
Definition numbers_read (f : Fill) : Prop :=
  is_Some (fill_px f) ∧ is_Some (fill_sz f) ∧ is_Some (fill_closedPnl f)
  ∧ is_Some (fill_fee f) ∧ is_Some (fill_startPosition f).

Definition amount_read (p : Funding) : Prop := is_Some (fund_usdc p).

(** A cell that holds a whole number, and the size of a cell. *)
Definition whole (x : option Qc) : Prop :=
  match x with
  | Some q => q = Qc_of_Z (Qnum q)
  | None => False
  end.

Definition size (x : option Qc) : Z :=
  match x with
  | Some q => Z.abs (Qnum q)
  | None => 0
  end.

(** A row with a date whose amounts are whole numbers. *)
Definition whole_fill (f : Fill) : Prop :=
  is_Some (fill_date f) ∧ whole (fill_closedPnl f) ∧ whole (fill_fee f).

Definition whole_funding (p : Funding) : Prop :=
  is_Some (fund_date p) ∧ whole (fund_usdc p).

(** The sizes of all the amounts of the two frames together: no sum or
    difference of some of them is larger. *)
Definition volume (F : list Fill) (G : list Funding) : Z :=
  foldr (λ f acc, size (fill_closedPnl f) + size (fill_fee f) + acc) 0 F
  + foldr (λ p acc, size (fund_usdc p) + acc) 0 G.

(** The number of fills with [closedPnl > 0] and with [closedPnl != 0], the
    comparisons being the frame's. *)
Definition count_pos (F : list Fill) : nat :=
  length (filter (λ f, gt0 (fill_closedPnl f)) F).

Definition count_closing (F : list Fill) : nat :=
  length (filter (λ f, ne0 (fill_closedPnl f)) F).

(** The win rate in the words of the specification, evaluated in binary64
    as written: 100 times the first count, over the second. *)
Definition spec_win_rate_b64 (F : list Fill) : float :=
  PrimFloat.div (PrimFloat.mul 100%float (float_of_count (count_pos F)))
    (float_of_count (count_closing F)).

(** The win rate as the code orders it: the quotient of the counts first,
    then times 100; 0 without a closing fill. *)
Definition quotient_first (F : list Fill) : float :=
  if decide (count_closing F = 0%nat) then 0%float
  else PrimFloat.mul
         (PrimFloat.div (float_of_count (count_pos F))
            (float_of_count (count_closing F)))
         100%float.

(** A normalized fill with a given [closedPnl] cell. *)
Definition fill_of_pnl (x : option Qc) : Fill :=
  {| fill_time := Some jan1; fill_date := Some 19723; fill_coin := RStr "ETH";
     fill_dir := RStr "Close Long"; fill_px := None; fill_sz := None;
     fill_closedPnl := x; fill_fee := None; fill_startPosition := None |}.

(** Scenario C of the specification. *)
Definition scenario_C : list Fill :=
  fill_of_pnl <$> [num 0; num 10; num (-5)].

(** Eleven winning fills and nine losing ones. *)
Definition eleven_of_twenty : list Fill :=
  fill_of_pnl <$> (replicate 11 (num 10) ++ replicate 9 (num (-5))).

(** The total of a column in the words of the specification: the sum over
    all rows, a missing value counting as zero. *)
Definition spec_total (s : list (option Qc)) : Qc :=
  foldr (λ x acc, default 0 x + acc)%Qc 0%Qc s.






(** A call fails when it raises or answers with a status other than 200. *)
Definition call_failed {A} (x : reply A) : Prop :=
  match x with
  | Raised _ => True
  | Response status_code _ => status_code ≠ 200
  end.

(** Scenario D of the specification: the funding call answers 500. *)
Definition scenario_D : transport :=
  {| post_userFills := λ _, Response 200 (Json (Some scenario_A_fills));
     post_userFunding := λ _ _, Response 500 (BadJson "Internal Server Error") |}.

(** ** Rows with a date, runs of the script *)

(** The rows of a frame whose date is not NaT. *)
Definition dated_fills (F : list Fill) : list Fill :=
  filter (λ f, is_Some (fill_date f)) F.

Definition dated_funding (G : list Funding) : list Funding :=
  filter (λ p, is_Some (fund_date p)) G.

(** One run of the script as the user drives it: the text in the address
    box and whether "Load Data" was pressed. *)
Record run := {
  typed : string;
  pressed_load : bool
}.

(** The row of the trade log made from a fill. *)
Definition trade_row (f : Fill) : TradeRow :=
  {| log_time := fill_time f;
     log_coin := fill_coin f;
     Direction := fill_dir f;
     Price := fill_px f;
     Size := fill_sz f;
     PnL := fill_closedPnl f;
     log_fee := fill_fee f |}.

(** The session state after a sequence of runs, from a fresh session. *)
Definition session_after (runs : list run) : session_state :=
  foldl (λ state r, (sidebar state (typed r) (pressed_load r)).1)
    fresh_session runs.

(** What every reachable session state satisfies: the flag is set exactly
    when an address is stored, and a stored address passed the length
    check. *)
Definition session_ok (state : session_state) : Prop :=
  if ss_data_loaded state then
    ∃ address, ss_address state = Some address
               ∧ (42 ≤ String.length address)%nat
  else ss_address state = None.

(** A text of 42 characters for the address box. *)
Definition some_address : string :=
  "0x1234567890abcdef1234567890abcdef12345678".

(** * Properties *)

(** Closed goals on worked inputs are decided by running the pipeline. *)
Ltac by_evaluation := apply (bool_decide_unpack _); by vm_compute.

(** ** Sums and running sums *)


Lemma series_sum_cons_Some q s :
  series_sum (Some q :: s) = (q + series_sum s)%Qc.
Proof. reflexivity. Qed.

Lemma series_sum_cons_None s : series_sum (None :: s) = series_sum s.
Proof. reflexivity. Qed.

Lemma series_sum_cons x s :
  series_sum (x :: s) = (default 0%Qc x + series_sum s)%Qc.
Proof.
  destruct x; simpl; [apply series_sum_cons_Some|].
  rewrite series_sum_cons_None. ring.
Qed.


Lemma Qc_sum_perm s1 s2 : s1 ≡ₚ s2 → Qc_sum s1 = Qc_sum s2.
Proof.
  induction 1 as [|x l l' _ IH|x y l|l l' l'' _ IH1 _ IH2]; simpl.
  - reflexivity.
  - by rewrite IH.
  - ring.
  - by rewrite IH1.
Qed.

Lemma length_cumsum_from acc s : length (cumsum_from acc s) = length s.
Proof. revert acc. induction s as [|x s IH]; intros acc; simpl; [done|]. by rewrite IH. Qed.

Lemma lookup_cumsum_from s : ∀ acc i x,
  s !! i = Some x →
  cumsum_from acc s !! i = Some (acc + Qc_sum (take (S i) s))%Qc.
Proof.
  induction s as [|y s IH]; intros acc i x Hi; [done|].
  destruct i as [|i]; simpl.
  - f_equal. unfold Qc_sum. simpl. ring.
  - simpl in Hi. rewrite (IH _ _ _ Hi). f_equal. simpl. ring.
Qed.

Lemma last_cumsum_from s : ∀ acc,
  s ≠ [] → last (cumsum_from acc s) = Some (acc + Qc_sum s)%Qc.
Proof.
  induction s as [|y s IH]; intros acc Hne; [done|].
  destruct s as [|z s].
  - simpl. f_equal. ring.
  - change (cumsum_from acc (y :: z :: s))
      with ((acc + y)%Qc :: cumsum_from (acc + y)%Qc (z :: s)).
    assert (∃ c cs, cumsum_from (acc + y)%Qc (z :: s) = c :: cs) as (c & cs & Hc)
      by (simpl; eauto).
    rewrite Hc, last_cons_cons, <- Hc, IH by done.
    f_equal. simpl. ring.
Qed.

(** ** Group keys and the join *)

Lemma elem_of_group_keys dates d : d ∈ group_keys dates ↔ Some d ∈ dates.
Proof.
  unfold group_keys.
  rewrite merge_sort_Permutation, elem_of_remove_dups, list_elem_of_omap.
  split.
  - intros (x & Hx & Hd). simpl in Hd. by subst.
  - intros Hd. by exists (Some d).
Qed.

Lemma NoDup_group_keys dates : NoDup (group_keys dates).
Proof.
  unfold group_keys. rewrite merge_sort_Permutation. apply NoDup_remove_dups.
Qed.

Lemma filter_key_fmap {A} (key : A → Z) (g : Z → A) (ks : list Z) (d : Z) :
  (∀ k, key (g k) = k) → NoDup ks →
  filter (λ x, key x = d) (g <$> ks) = if decide (d ∈ ks) then [g d] else [].
Proof.
  intros Hkey. induction 1 as [|k ks Hk Hnd IH]; [done|].
  rewrite fmap_cons, filter_cons, Hkey, IH.
  destruct (decide (k = d)) as [->|Hne].
  - rewrite (decide_False (P := d ∈ ks)) by done.
    by rewrite (decide_True (P := d ∈ d :: ks)) by left.
  - destruct (decide (d ∈ ks)) as [Hin|Hnin].
    + by rewrite (decide_True (P := d ∈ k :: ks)) by (by right).
    + rewrite (decide_False (P := d ∈ k :: ks)); [done|].
      intros [?|?]%elem_of_cons; congruence.
Qed.

Lemma filter_absent {A} (key : A → option Z) (l : list A) (d : Z) :
  Some d ∉ key <$> l → filter (λ x, key x = Some d) l = [].
Proof.
  intros Hd. induction l as [|x l IH]; [done|].
  rewrite fmap_cons, not_elem_of_cons in Hd. destruct Hd as [Hx Hl].
  rewrite filter_cons_False by congruence. auto.
Qed.

Lemma bind_singletons {A B} (f : A → list B) (g : A → B) (l : list A) :
  (∀ x, x ∈ l → f x = [g x]) → l ≫= f = g <$> l.
Proof.
  induction l as [|x l IH]; intros Hf; [done|].
  rewrite bind_cons, fmap_cons, Hf by left.
  rewrite IH; [done|]. intros y Hy. apply Hf. by right.
Qed.

Lemma fmap_bind {A B C} (h : B → C) (f : A → list B) (l : list A) :
  h <$> (l ≫= f) = l ≫= (λ x, h <$> f x).
Proof.
  induction l as [|x l IH]; [done|].
  by rewrite !bind_cons, fmap_app, IH.
Qed.

Lemma daily_fills_dates F :
  dfill_date <$> daily_fills F = group_keys (fill_date <$> F).
Proof.
  unfold daily_fills. rewrite <- list_fmap_compose.
  rewrite <- (list_fmap_id (group_keys _)) at 2. by apply list_fmap_ext.
Qed.

Lemma daily_funding_dates G :
  dfund_date <$> daily_funding G = group_keys (fund_date <$> G).
Proof.
  unfold daily_funding. rewrite <- list_fmap_compose.
  rewrite <- (list_fmap_id (group_keys _)) at 2. by apply list_fmap_ext.
Qed.

Lemma joined_rows F G : joined F G = day_of F G <$> joined_keys F G.
Proof.
  unfold joined, joined_keys. destruct (empty G) eqn:HG; cbn [negb].
  - destruct G; [|done].
    unfold daily_fills. rewrite <- list_fmap_compose. by apply list_fmap_ext.
  - unfold merge_outer. rewrite daily_fills_dates, daily_funding_dates.
    set (keys := merge_sort _ _).
    rewrite fmap_bind.
    apply bind_singletons. intros d Hd.
    unfold daily_fills, daily_funding.
    rewrite (filter_key_fmap dfill_date _ _ d) by (done || apply NoDup_group_keys).
    rewrite (filter_key_fmap dfund_date _ _ d) by (done || apply NoDup_group_keys).
    assert (d ∈ group_keys (fill_date <$> F) ∨ d ∈ group_keys (fund_date <$> G))
      as Hin.
    { subst keys. rewrite merge_sort_Permutation, elem_of_remove_dups in Hd.
      by apply elem_of_app in Hd. }
    unfold day_of, fills_on, funding_on.
    destruct (decide (d ∈ group_keys (fill_date <$> F))) as [HF|HF];
      destruct (decide (d ∈ group_keys (fund_date <$> G))) as [HG'|HG'];
      cbn [mbind list_bind fmap list_fmap app]; unfold fillna0; simpl.
    + done.
    + rewrite elem_of_group_keys in HG'.
      by rewrite (filter_absent fund_date G d HG').
    + rewrite elem_of_group_keys in HF.
      by rewrite (filter_absent fill_date F d HF).
    + tauto.
Qed.

(** ** The sorted frame and its derived columns *)

Global Instance by_date_trans : Transitive by_date.
Proof. intros a b c. unfold by_date. lia. Qed.

Global Instance by_date_total : Total by_date.
Proof. intros a b. unfold by_date. lia. Qed.

Lemma sorted_rows_perm F G :
  sorted_rows F G ≡ₚ (λ d, (day_of F G d, day_net (day_of F G d)))
                      <$> joined_keys F G.
Proof.
  unfold sorted_rows. rewrite merge_sort_Permutation, joined_rows.
  by rewrite <- list_fmap_compose.
Qed.

(** The joined frame has one row per date, so its ascending order is the same
    whichever sorting algorithm [sort_values] runs. *)
Lemma sort_values_determined F G (rows : list (DayRow * Qc)) :
  rows ≡ₚ (λ r, (r, day_net r)) <$> joined F G →
  Sorted by_date rows →
  rows = sorted_rows F G.
Proof.
  intros Hperm Hsorted.
  apply (Sorted_unique_strong by_date); [|done|apply Sorted_merge_sort; apply _|].
  - intros x1 x2 H1 H2 H12 H21.
    rewrite Hperm, joined_rows, <- list_fmap_compose in H1.
    rewrite sorted_rows_perm in H2.
    apply list_elem_of_fmap in H1 as (d1 & -> & _).
    apply list_elem_of_fmap in H2 as (d2 & -> & _).
    unfold by_date in H12, H21. simpl in H12, H21.
    by replace d2 with d1 by lia.
  - unfold sorted_rows. by rewrite merge_sort_Permutation.
Qed.

Lemma fmap_zip_with_proj_l {A B C D} (f : A → B → C) (h : C → D) (h' : A → D)
    (l : list A) (k : list B) :
  (∀ x y, h (f x y) = h' x) → (length l ≤ length k)%nat →
  h <$> zip_with f l k = h' <$> l.
Proof.
  intros Hh. revert k.
  induction l as [|x l IH]; intros [|y k] Hlen; simpl in *; try done; [lia|].
  rewrite Hh, IH by lia. done.
Qed.

Lemma fmap_zip_with_proj_r {A B C D} (f : A → B → C) (h : C → D) (h' : B → D)
    (l : list A) (k : list B) :
  (∀ x y, h (f x y) = h' y) → (length k ≤ length l)%nat →
  h <$> zip_with f l k = h' <$> k.
Proof.
  intros Hh. revert k.
  induction l as [|x l IH]; intros [|y k] Hlen; simpl in *; try done; [lia|].
  rewrite Hh, IH by lia. done.
Qed.

Lemma length_cumsum s : length (cumsum s) = length s.
Proof. apply length_cumsum_from. Qed.

Lemma daily_combined_date F G :
  date <$> daily_combined F G = (λ p, day_date p.1) <$> sorted_rows F G.
Proof.
  apply fmap_zip_with_proj_l; [done|].
  by rewrite length_cumsum, length_fmap.
Qed.

Lemma daily_combined_net F G :
  daily_net_pnl <$> daily_combined F G = snd <$> sorted_rows F G.
Proof.
  apply fmap_zip_with_proj_l; [done|].
  by rewrite length_cumsum, length_fmap.
Qed.

Lemma daily_combined_cumulative F G :
  cumulative_pnl <$> daily_combined F G
  = cumsum (daily_net_pnl <$> daily_combined F G).
Proof.
  rewrite daily_combined_net.
  unfold daily_combined. fold (sorted_rows F G).
  rewrite (fmap_zip_with_proj_r finish cumulative_pnl id); [apply list_fmap_id|done|].
  by rewrite length_cumsum, length_fmap.
Qed.

Lemma daily_combined_dates_perm F G :
  date <$> daily_combined F G ≡ₚ joined_keys F G.
Proof.
  rewrite daily_combined_date, sorted_rows_perm, <- list_fmap_compose.
  rewrite <- (list_fmap_id (joined_keys F G)) at 2.
  by erewrite list_fmap_ext.
Qed.

Lemma NoDup_joined_keys F G : NoDup (joined_keys F G).
Proof.
  unfold joined_keys. destruct (negb (empty G)).
  - rewrite merge_sort_Permutation. apply NoDup_remove_dups.
  - apply NoDup_group_keys.
Qed.

Lemma elem_of_joined_keys F G d :
  d ∈ joined_keys F G ↔ Some d ∈ fill_date <$> F ∨ Some d ∈ fund_date <$> G.
Proof.
  unfold joined_keys. destruct G as [|g G]; simpl.
  - rewrite elem_of_group_keys. split; [by left|].
    intros [?|H]; [done|]. by apply elem_of_nil in H.
  - rewrite merge_sort_Permutation, elem_of_remove_dups, elem_of_app.
    by rewrite !elem_of_group_keys.
Qed.

Lemma elem_of_daily_combined_date F G d :
  d ∈ date <$> daily_combined F G
  ↔ Some d ∈ fill_date <$> F ∨ Some d ∈ fund_date <$> G.
Proof. rewrite daily_combined_dates_perm. apply elem_of_joined_keys. Qed.

(** Every finished row is the row of its date, with its daily net. *)
Lemma daily_combined_row F G r :
  r ∈ daily_combined F G →
  date r ∈ joined_keys F G
  ∧ closedPnl r = series_sum (fill_closedPnl <$> fills_on F (date r))
  ∧ fee r = series_sum (fill_fee <$> fills_on F (date r))
  ∧ usdc r = series_sum (fund_usdc <$> funding_on G (date r))
  ∧ daily_net_pnl r = (closedPnl r - fee r + usdc r)%Qc.
Proof.
  unfold daily_combined. fold (sorted_rows F G).
  intros (p & c & -> & Hp & _)%elem_of_zip_with.
  rewrite sorted_rows_perm in Hp.
  apply list_elem_of_fmap in Hp as (d & -> & Hd).
  by repeat split.
Qed.

Lemma StronglySorted_le_lt (l : list Z) :
  StronglySorted Z.le l → NoDup l → StronglySorted Z.lt l.
Proof.
  induction 1 as [|x l Hs IH Hx]; intros Hnd; [constructor|].
  apply NoDup_cons in Hnd as [Hnin Hnd].
  constructor; [auto|].
  rewrite Forall_forall in Hx |- *. intros y Hy.
  specialize (Hx y Hy). assert (x ≠ y) by (intros ->; done). lia.
Qed.

Lemma daily_combined_sorted F G :
  StronglySorted Z.lt (date <$> daily_combined F G).
Proof.
  apply StronglySorted_le_lt.
  - rewrite daily_combined_date.
    apply (StronglySorted_fmap _ by_date); [done|].
    apply StronglySorted_merge_sort; apply _.
  - rewrite daily_combined_dates_perm. apply NoDup_joined_keys.
Qed.

Lemma cumsum_prefix (s : list Qc) :
  cumsum s = (λ i, Qc_sum (take (S i) s)) <$> seq 0 (length s).
Proof.
  apply list_eq. intros i. rewrite list_lookup_fmap.
  destruct (s !! i) as [x|] eqn:Hi.
  - unfold cumsum. rewrite (lookup_cumsum_from _ _ _ _ Hi).
    rewrite lookup_seq_lt by (by eapply lookup_lt_Some). simpl. f_equal. ring.
  - apply lookup_ge_None in Hi.
    rewrite lookup_seq_ge by done.
    apply lookup_ge_None. by rewrite length_cumsum.
Qed.

(** ** The daily aggregate *)

(** C1: for all normalized fills and funding, the rows of [daily_combined]
    are in strictly ascending date order, each row's [daily_net_pnl] is
    [closedPnl - fee + usdc] with the three sums taken over the events of that
    date, and [cumulative_pnl] at position [i] is the sum of [daily_net_pnl]
    over positions [0..i]; on Scenario A the chart is day 1 net 104
    cumulative 104, day 2 net -51 cumulative 53. *)
Theorem daily_combined_prefix_sum (F : list Fill) (G : list Funding) :
  let rows := daily_combined F G in
  StronglySorted Z.lt (date <$> rows)
  ∧ Forall (λ r,
      closedPnl r = series_sum (fill_closedPnl <$> fills_on F (date r))
      ∧ fee r = series_sum (fill_fee <$> fills_on F (date r))
      ∧ usdc r = series_sum (fund_usdc <$> funding_on G (date r))
      ∧ daily_net_pnl r = (closedPnl r - fee r + usdc r)%Qc) rows
  ∧ cumulative_pnl <$> rows
    = (λ i, Qc_sum (daily_net_pnl <$> take (S i) rows)) <$> seq 0 (length rows)
  ∧ chart (daily_combined A_fills A_funding)
    = [(19723, Qc_of_Z 104, Qc_of_Z 104); (19724, Qc_of_Z (-51), Qc_of_Z 53)].
Proof.
  intros rows. split; [apply daily_combined_sorted|]. split; [|split].
  - apply Forall_forall. intros r Hr.
    by apply daily_combined_row in Hr as (_ & ? & ? & ? & ?).
  - subst rows. rewrite daily_combined_cumulative, cumsum_prefix.
    rewrite length_fmap. apply list_fmap_ext. intros _ i _.
    by rewrite fmap_take.
  - by_evaluation.
Qed.

(** C2: the date column of [daily_combined] has no duplicates and holds
    exactly the calendar dates that occur in the fills or in the funding
    payments. *)
Theorem daily_combined_dates (F : list Fill) (G : list Funding) :
  NoDup (date <$> daily_combined F G)
  ∧ ∀ d, d ∈ date <$> daily_combined F G
         ↔ Some d ∈ fill_date <$> F ∨ Some d ∈ fund_date <$> G.
Proof.
  split.
  - rewrite daily_combined_dates_perm. apply NoDup_joined_keys.
  - intros d. apply elem_of_daily_combined_date.
Qed.

(** What the outer join leaves missing, before [fillna(0)]. *)
Lemma merge_outer_missing L R m :
  m ∈ merge_outer L R →
  (merged_date m ∉ dfund_date <$> R → merged_usdc m = None)
  ∧ (merged_date m ∉ dfill_date <$> L →
     merged_closedPnl m = None ∧ merged_fee m = None).
Proof.
  unfold merge_outer. intros (d & Hm & _)%list_elem_of_bind.
  destruct (filter (λ l, dfill_date l = d) L) as [|l ls] eqn:HL;
    destruct (filter (λ r, dfund_date r = d) R) as [|r rs] eqn:HR.
  - by apply elem_of_nil in Hm.
  - apply list_elem_of_fmap in Hm as (r' & -> & Hr').
    rewrite <- HR in Hr'. apply list_elem_of_filter in Hr' as [Hd Hr'].
    split; [|done]. intros []. simpl. by apply list_elem_of_fmap_2.
  - apply list_elem_of_fmap in Hm as (l' & -> & Hl').
    rewrite <- HL in Hl'. apply list_elem_of_filter in Hl' as [Hd Hl'].
    split; [done|]. intros []. simpl. by apply list_elem_of_fmap_2.
  - apply list_elem_of_bind in Hm as (l' & Hm & Hl').
    apply list_elem_of_bind in Hm as (r' & Hm & Hr').
    apply list_elem_of_singleton in Hm as ->.
    rewrite <- HL in Hl'. apply list_elem_of_filter in Hl' as [Hdl Hl'].
    rewrite <- HR in Hr'. apply list_elem_of_filter in Hr' as [Hdr Hr'].
    split; intros []; simpl.
    + rewrite Hdl, <- Hdr. by apply list_elem_of_fmap_2.
    + by apply list_elem_of_fmap_2.
Qed.

(** C3: a date that occurs in the fills and in no funding payment has a
    row in [daily_combined], with [usdc] 0 and the sums of that day's fills;
    a date that occurs in the funding payments and in no fill has a row too,
    with [closedPnl] and [fee] 0 and the sum of that day's payments.  In
    every row the cells of a side that lacks the date are 0: the outer join
    leaves them missing and [fillna(0)] writes the number 0 into them (with
    an empty funding frame there is no join and [usdc] is assigned 0). *)
Theorem zero_fill_join (F : list Fill) (G : list Funding) (d : Z) :
  (Some d ∈ fill_date <$> F → Some d ∉ fund_date <$> G →
   ∃ r, r ∈ daily_combined F G ∧ date r = d ∧ usdc r = 0%Qc
        ∧ closedPnl r = series_sum (fill_closedPnl <$> fills_on F d)
        ∧ fee r = series_sum (fill_fee <$> fills_on F d))
  ∧ (Some d ∈ fund_date <$> G → Some d ∉ fill_date <$> F →
     ∃ r, r ∈ daily_combined F G ∧ date r = d
          ∧ closedPnl r = 0%Qc ∧ fee r = 0%Qc
          ∧ usdc r = series_sum (fund_usdc <$> funding_on G d))
  ∧ Forall (λ r,
      (Some (date r) ∉ fund_date <$> G → usdc r = 0%Qc)
      ∧ (Some (date r) ∉ fill_date <$> F →
         closedPnl r = 0%Qc ∧ fee r = 0%Qc))
      (daily_combined F G)
  ∧ Forall (λ m,
      (merged_date m ∉ dfund_date <$> daily_funding G →
       merged_usdc m = None ∧ day_usdc (fillna0 m) = 0%Qc)
      ∧ (merged_date m ∉ dfill_date <$> daily_fills F →
         (merged_closedPnl m = None ∧ day_closedPnl (fillna0 m) = 0%Qc)
         ∧ (merged_fee m = None ∧ day_fee (fillna0 m) = 0%Qc)))
      (merge_outer (daily_fills F) (daily_funding G)).
Proof.
  assert (∀ r, r ∈ daily_combined F G →
            (Some (date r) ∉ fund_date <$> G → usdc r = 0%Qc)
            ∧ (Some (date r) ∉ fill_date <$> F →
               closedPnl r = 0%Qc ∧ fee r = 0%Qc)) as Hzero.
  { intros r Hr. apply daily_combined_row in Hr as (_ & -> & -> & -> & _).
    split.
    - intros Hd. unfold funding_on.
      by rewrite (filter_absent fund_date G _ Hd).
    - intros Hd. unfold fills_on.
      by rewrite (filter_absent fill_date F _ Hd). }
  assert (Some d ∈ fill_date <$> F ∨ Some d ∈ fund_date <$> G →
          ∃ r, r ∈ daily_combined F G ∧ date r = d) as Hrow.
  { intros Hd. apply elem_of_daily_combined_date in Hd.
    apply list_elem_of_fmap in Hd as (r & -> & Hr). by exists r. }
  split; [|split; [|split]].
  - intros HF HG. destruct Hrow as (r & Hr & <-); [by left|].
    exists r. split; [done|]. split; [done|].
    split; [by apply Hzero|].
    by apply daily_combined_row in Hr as (_ & ? & ? & _).
  - intros HG HF. destruct Hrow as (r & Hr & <-); [by right|].
    exists r. split; [done|]. split; [done|].
    destruct (Hzero r Hr) as [_ Hz]. destruct (Hz HF) as [Hc Hf].
    split; [done|]. split; [done|].
    by apply daily_combined_row in Hr as (_ & _ & _ & ? & _).
  - apply Forall_forall. intros r Hr. by apply Hzero.
  - apply Forall_forall. intros m Hm.
    apply merge_outer_missing in Hm as [Hu Hc]. split.
    + intros Hd. unfold fillna0. simpl. by rewrite (Hu Hd).
    + intros Hd. unfold fillna0. simpl. destruct (Hc Hd) as [-> ->]. done.
Qed.

Lemma zero_fill_join_witness :
  let F := fst scenario_late in
  let G := snd scenario_late in
  (Some 19724 ∈ fill_date <$> F) ∧ (Some 19724 ∉ fund_date <$> G)
  ∧ (Some 19725 ∈ fund_date <$> G) ∧ (Some 19725 ∉ fill_date <$> F)
  ∧ (∃ r, r ∈ daily_combined F G ∧ date r = 19724 ∧ usdc r = 0%Qc
          ∧ closedPnl r = Qc_of_Z (-50) ∧ fee r = Qc_of_Z 1)
  ∧ (∃ r, r ∈ daily_combined F G ∧ date r = 19725
          ∧ closedPnl r = 0%Qc ∧ fee r = 0%Qc ∧ usdc r = Qc_of_Z 2).
Proof.
  intros F G.
  assert (Some 19724 ∈ fill_date <$> F) as H1 by by_evaluation.
  assert (Some 19724 ∉ fund_date <$> G) as H2 by by_evaluation.
  assert (Some 19725 ∈ fund_date <$> G) as H3 by by_evaluation.
  assert (Some 19725 ∉ fill_date <$> F) as H4 by by_evaluation.
  do 4 (split; [done|]). split.
  - destruct (proj1 (zero_fill_join F G 19724) H1 H2)
      as (r & Hr & Hd & Hu & Hc & Hf).
    exists r. do 3 (split; [done|]).
    split; [rewrite Hc|rewrite Hf]; by_evaluation.
  - destruct (proj1 (proj2 (zero_fill_join F G 19725)) H3 H4)
      as (r & Hr & Hd & Hc & Hf & Hu).
    exists r. do 4 (split; [done|]). rewrite Hu. by_evaluation.
Defined.

(** ** The two paths to the net PnL *)

Lemma Qc_sum_add_at (a : Qc) (f : Z → Qc) (d0 : Z) (ks : list Z) :
  NoDup ks → d0 ∈ ks →
  Qc_sum ((λ d, (if decide (d0 = d) then a else 0) + f d)%Qc <$> ks)
  = (a + Qc_sum (f <$> ks))%Qc.
Proof.
  induction 1 as [|k ks Hk Hnd IH]; intros Hin; [by apply elem_of_nil in Hin|].
  rewrite !fmap_cons. unfold Qc_sum in *. simpl.
  destruct (decide (d0 = k)) as [->|Hne].
  - assert (foldr Qcplus 0%Qc
              ((λ d, (if decide (k = d) then a else 0) + f d)%Qc <$> ks)
            = foldr Qcplus 0%Qc (f <$> ks)) as ->; [|ring].
    f_equal. apply list_fmap_ext. intros i d Hd.
    apply list_elem_of_lookup_2 in Hd.
    rewrite decide_False by (intros Heq; by subst). ring.
  - apply elem_of_cons in Hin as [?|Hin]; [done|].
    rewrite (IH Hin). ring.
Qed.

Lemma Qc_sum_zero {A} (l : list A) : Qc_sum ((λ _, 0%Qc) <$> l) = 0%Qc.
Proof.
  induction l as [|x l IH]; [done|].
  rewrite fmap_cons. unfold Qc_sum in *. cbn [foldr]. rewrite IH. ring.
Qed.

(** Summing a column group by group gives the sum of the column, when every
    row has its key among the groups. *)
Lemma sum_by_key {A} (key : A → option Z) (col : A → option Qc)
    (l : list A) (ks : list Z) :
  NoDup ks →
  (∀ x, x ∈ l → ∃ d, key x = Some d ∧ d ∈ ks) →
  Qc_sum ((λ d, series_sum (col <$> filter (λ x, key x = Some d) l)) <$> ks)
  = series_sum (col <$> l).
Proof.
  intros Hnd. induction l as [|x l IH]; intros Hkey.
  - simpl. by rewrite Qc_sum_zero.
  - destruct (Hkey x) as (d0 & Hx & Hd0); [left|].
    rewrite fmap_cons, series_sum_cons, <- IH
      by (intros y Hy; apply Hkey; by right).
    rewrite <- (Qc_sum_add_at _ _ d0) by done.
    f_equal. apply list_fmap_ext. intros _ d _.
    rewrite filter_cons, Hx.
    destruct (decide (d0 = d)) as [->|Hne].
    + rewrite decide_True by done. by rewrite fmap_cons, series_sum_cons.
    + rewrite decide_False by congruence. ring.
Qed.

Lemma Qc_sum_day_net (rows : list DayRow) :
  Qc_sum (day_net <$> rows)
  = (Qc_sum (day_closedPnl <$> rows) - Qc_sum (day_fee <$> rows)
     + Qc_sum (day_usdc <$> rows))%Qc.
Proof.
  induction rows as [|r rows IH]; [unfold Qc_sum; simpl; ring|].
  rewrite !fmap_cons. unfold Qc_sum in *. cbn [foldr].
  rewrite IH. unfold day_net. ring.
Qed.

Lemma total_funding_sum G : total_funding G = series_sum (fund_usdc <$> G).
Proof. by destruct G. Qed.

(** The sum of the daily nets is the net PnL of the metrics. *)
Lemma sum_daily_net F G :
  (∀ f, f ∈ F → is_Some (fill_date f)) →
  (∀ p, p ∈ G → is_Some (fund_date p)) →
  Qc_sum (daily_net_pnl <$> daily_combined F G) = net_pnl F G.
Proof.
  intros HF HG.
  rewrite daily_combined_net, (Qc_sum_perm _ _ (fmap_Permutation _ _ _ (sorted_rows_perm F G))).
  rewrite <- list_fmap_compose.
  change (snd ∘ _) with (day_net ∘ day_of F G).
  rewrite list_fmap_compose, Qc_sum_day_net, <- !list_fmap_compose.
  unfold net_pnl, total_closed_pnl, total_trading_fees.
  rewrite total_funding_sum.
  pose proof (NoDup_joined_keys F G) as Hnd.
  f_equal; [f_equal|].
  - apply (sum_by_key fill_date fill_closedPnl F _ Hnd).
    intros f Hf. destruct (HF f Hf) as [d Hd]. exists d. split; [done|].
    apply elem_of_joined_keys. left. rewrite <- Hd. by apply list_elem_of_fmap_2.
  - apply (sum_by_key fill_date fill_fee F _ Hnd).
    intros f Hf. destruct (HF f Hf) as [d Hd]. exists d. split; [done|].
    apply elem_of_joined_keys. left. rewrite <- Hd. by apply list_elem_of_fmap_2.
  - apply (sum_by_key fund_date fund_usdc G _ Hnd).
    intros p Hp. destruct (HG p Hp) as [d Hd]. exists d. split; [done|].
    apply elem_of_joined_keys. right. rewrite <- Hd. by apply list_elem_of_fmap_2.
Qed.

Lemma daily_combined_nonempty F G :
  (∀ f, f ∈ F → is_Some (fill_date f)) →
  (∀ p, p ∈ G → is_Some (fund_date p)) →
  F ≠ [] ∨ G ≠ [] → daily_combined F G ≠ [].
Proof.
  intros HF HG Hne Hnil.
  assert (∃ d, d ∈ date <$> daily_combined F G) as [d Hin].
  { destruct Hne as [Hne|Hne].
    - destruct F as [|f F]; [done|]. destruct (HF f) as [d Hf]; [left|].
      exists d. apply elem_of_daily_combined_date. left.
      rewrite <- Hf. apply list_elem_of_fmap_2. left.
    - destruct G as [|p G]; [done|]. destruct (HG p) as [d Hp]; [left|].
      exists d. apply elem_of_daily_combined_date. right.
      rewrite <- Hp. apply list_elem_of_fmap_2. left. }
  rewrite Hnil in Hin. by apply elem_of_nil in Hin.
Qed.

(** Why the amounts are asked to be whole: in binary64 the totals of closed
    PnL 0.1 and 0.1, fees 0.1 and 0.2 and funding 0.1 give a net of about
    -2.8e-17, while the two daily nets 0.1 - 0.1 + 0 and 0.1 - 0.2 + 0.1 add
    up to 0. *)
Lemma binary64_orders_of_summation :
  let x := PrimFloat.div 1%float 10%float in
  let y := PrimFloat.div 2%float 10%float in
  PrimFloat.eqb
    (PrimFloat.add (PrimFloat.sub (PrimFloat.add x x) (PrimFloat.add x y)) x)
    (PrimFloat.add
       (PrimFloat.add (PrimFloat.sub x x) 0%float)
       (PrimFloat.add (PrimFloat.sub x y) x))
  = false.
Proof. by vm_compute. Qed.

(** C9, as it is stated, fails: with every numeric field read, a fill whose
    [time] is null enters [net_pnl] and no row of [daily_combined]. *)
Lemma last_cumulative_counterexample :
  let df :=
    process_data parse_decimal
      (Some [raw_fill jan1 "10" "1"; raw_fill_undated "5" "0"]) None in
  Forall numbers_read (fst df) ∧ Forall amount_read (snd df)
  ∧ net_pnl (fst df) (snd df) = Qc_of_Z 14
  ∧ last (cumulative_pnl <$> daily_combined (fst df) (snd df))
    = Some (Qc_of_Z 9)
  ∧ last (cumulative_pnl <$> daily_combined (fst df) (snd df))
    ≠ Some (net_pnl (fst df) (snd df)).
Proof.
  intros df. split; [|split; [|split; [|split]]].
  - repeat constructor; by eexists.
  - constructor.
  - by_evaluation.
  - by_evaluation.
  - by_evaluation.
Qed.

(** C9, amended: for normalized fills and funding, not both empty, in which
    every row has a date and every closed PnL, fee and funding amount is a
    whole number, all of them together smaller than 2^53 (so that every sum
    the frames take is exact in binary64), the last [cumulative_pnl] of
    [daily_combined] is the [net_pnl] of the metrics. *)
Theorem last_cumulative_is_net_pnl (F : list Fill) (G : list Funding) :
  Forall whole_fill F → Forall whole_funding G → volume F G < 2 ^ 53 →
  F ≠ [] ∨ G ≠ [] →
  last (cumulative_pnl <$> daily_combined F G) = Some (net_pnl F G).
Proof.
  intros HF HG _ Hne.
  assert (∀ f, f ∈ F → is_Some (fill_date f)) as HF'.
  { intros f Hf. rewrite Forall_forall in HF. by destruct (HF f Hf) as [? _]. }
  assert (∀ p, p ∈ G → is_Some (fund_date p)) as HG'.
  { intros p Hp. rewrite Forall_forall in HG. by destruct (HG p Hp) as [? _]. }
  rewrite daily_combined_cumulative. unfold cumsum.
  rewrite last_cumsum_from.
  - rewrite sum_daily_net by done. f_equal. ring.
  - intros Hnil. apply fmap_nil_inv in Hnil.
    by apply (daily_combined_nonempty F G).
Qed.

Lemma last_cumulative_is_net_pnl_witness :
  Forall whole_fill A_fills ∧ Forall whole_funding A_funding
  ∧ volume A_fills A_funding < 2 ^ 53
  ∧ A_fills ≠ []
  ∧ last (cumulative_pnl <$> daily_combined A_fills A_funding)
    = Some (net_pnl A_fills A_funding).
Proof.
  assert (Forall whole_fill A_fills) as H1.
  { repeat constructor; try (by eexists); by apply Qc_is_canon. }
  assert (Forall whole_funding A_funding) as H2.
  { repeat constructor; try (by eexists); by apply Qc_is_canon. }
  assert (volume A_fills A_funding < 2 ^ 53) as H3 by reflexivity.
  assert (A_fills ≠ []) as H4 by done.
  split; [exact H1|]. split; [exact H2|]. split; [exact H3|].
  split; [exact H4|].
  exact (last_cumulative_is_net_pnl A_fills A_funding H1 H2 H3 (or_introl H4)).
Defined.

(** Why the rows are asked to carry a timestamp: a fill with a null [time]
    has the date NaT, is left out of every group and still enters the totals. *)
Lemma undated_fill_not_charted :
  let df :=
    process_data parse_decimal
      (Some [raw_fill jan1 "10" "1"; raw_fill_undated "5" "0"]) None in
  net_pnl df.1 df.2 = Qc_of_Z 14
  ∧ chart (daily_combined df.1 df.2) = [(19723, Qc_of_Z 9, Qc_of_Z 9)].
Proof. split; by_evaluation. Qed.

(** ** The summary metrics *)

Lemma gt0_ne0 x : gt0 x → ne0 x.
Proof.
  destruct x as [q|]; [|done]. intros Hq [= ->]. by apply Qclt_not_eq in Hq.
Qed.

Lemma wins_filter F : wins F = filter (λ f, gt0 (fill_closedPnl f)) F.
Proof.
  unfold wins, closed_trades. rewrite list_filter_filter.
  apply list_filter_iff. intros f. split; [tauto|].
  intros H. split; [done|]. by apply gt0_ne0.
Qed.

Lemma Qc_of_nat_0 : Qc_of_nat 0 = 0%Qc.
Proof. by apply Qc_is_canon. Qed.

(** C4, as it is stated, fails in binary64: with 11 wins among 20 closing
    fills the code's (11 / 20) * 100 is 55.00000000000001, and 100 * 11 / 20
    is 55. *)
Lemma win_rate_formula_counterexample :
  win_rate_b64 eleven_of_twenty = Some 0x1.b800000000001p+5%float
  ∧ spec_win_rate_b64 eleven_of_twenty = 55%float
  ∧ win_rate_b64 eleven_of_twenty ≠ Some (spec_win_rate_b64 eleven_of_twenty).
Proof.
  split; [by vm_compute|]. split; [by vm_compute|].
  intros H.
  apply (f_equal (λ o, if o is Some x then PrimFloat.eqb x 55%float else false))
    in H.
  vm_compute in H. discriminate H.
Qed.

(** C4, amended: the win rate is the binary64 quotient of the number of
    fills with [closedPnl > 0] by the number of fills with [closedPnl != 0],
    both counted over all fills, times 100, the quotient being taken first;
    without a fill with [closedPnl != 0] nothing is divided and the win rate
    is 0; Scenario C gives 50.0. *)
Theorem win_rate_quotient_first (F : list Fill) :
  win_rate_b64 F = Some (quotient_first F)
  ∧ (count_closing F = 0%nat → win_rate_b64 F = Some 0%float)
  ∧ win_rate_b64 scenario_C = Some 50%float.
Proof.
  assert (win_rate_b64 F = Some (quotient_first F)) as Heq.
  { unfold win_rate_b64, quotient_first, count_pos, count_closing.
    rewrite wins_filter. fold (closed_trades F).
    destruct (length (closed_trades F)) as [|n] eqn:Hn.
    - by rewrite bool_decide_false by lia.
    - rewrite bool_decide_true by lia. by rewrite decide_False by lia. }
  split; [exact Heq|]. split; [|by vm_compute].
  intros H0. rewrite Heq. unfold quotient_first. by rewrite decide_True.
Qed.

Lemma win_rate_quotient_first_witness :
  let F := fill_of_pnl <$> [num 0; num 0] in
  count_closing F = 0%nat ∧ win_rate_b64 F = Some 0%float.
Proof.
  intros F.
  assert (count_closing F = 0%nat) as H0 by (by vm_compute).
  split; [exact H0|].
  exact (proj1 (proj2 (win_rate_quotient_first F)) H0).
Defined.

Lemma series_sum_spec_total s : series_sum s = spec_total s.
Proof.
  induction s as [|x s IH]; [done|].
  rewrite series_sum_cons, IH. reflexivity.
Qed.

(** C5: [net_pnl] is the total closed PnL minus the total fees plus the total
    funding, each total the sum of its column over all rows; the funding
    total of an empty funding frame is 0, and so is every term on empty
    input. *)
Theorem net_pnl_identity (F : list Fill) (G : list Funding) :
  net_pnl F G
  = (spec_total (fill_closedPnl <$> F) - spec_total (fill_fee <$> F)
     + spec_total (fund_usdc <$> G))%Qc
  ∧ metric_net_pnl (metrics F G)
    = (total_closed_pnl F - metric_trading_fees (metrics F G)
       + metric_funding (metrics F G))%Qc
  ∧ total_funding [] = 0%Qc
  ∧ total_closed_pnl [] = 0%Qc ∧ total_trading_fees [] = 0%Qc
  ∧ net_pnl [] [] = 0%Qc.
Proof.
  split; [|split; [done|split; [done|split; [done|split; [done|]]]]].
  - unfold net_pnl, total_closed_pnl, total_trading_fees.
    by rewrite total_funding_sum, !series_sum_spec_total.
  - by apply Qc_is_canon.
Qed.

(** ** Malformed numbers *)

Lemma Qc_of_nat_lt (m n : nat) : (m < n)%nat → (Qc_of_nat m < Qc_of_nat n)%Qc.
Proof.
  intros H. unfold Qclt, Qc_of_nat. simpl. rewrite <- Zlt_Qlt. lia.
Qed.

Lemma Qc_of_nat_pos (n : nat) : (0 < n)%nat → (0 < Qc_of_nat n)%Qc.
Proof. intros H. rewrite <- Qc_of_nat_0. by apply Qc_of_nat_lt. Qed.

(** One more closing fill that is not a win lowers a positive win rate. *)
Lemma rate_drops (w n : nat) :
  (0 < w)%nat → (0 < n)%nat →
  (Qc_of_nat w / Qc_of_nat (S n) * Qc_of_Z 100
   < Qc_of_nat w / Qc_of_nat n * Qc_of_Z 100)%Qc.
Proof.
  intros Hw Hn.
  pose proof (Qc_of_nat_pos w Hw) as Hw'.
  pose proof (Qc_of_nat_pos n Hn) as Hn'.
  pose proof (Qc_of_nat_pos (S n) ltac:(lia)) as HSn'.
  pose proof (Qc_of_nat_lt n (S n) ltac:(lia)) as Hlt.
  assert (0 < Qc_of_Z 100)%Qc as Hc by done.
  apply (Qcmult_lt_mono_pos_r _ _ (Qc_of_nat (S n) * Qc_of_nat n)%Qc).
  { by apply Qcmult_pos_pos. }
  assert (Qc_of_nat n ≠ 0%Qc) by (by apply Qclt_not_eq in Hn').
  assert (Qc_of_nat (S n) ≠ 0%Qc) by (by apply Qclt_not_eq in HSn').
  replace (Qc_of_nat w / Qc_of_nat (S n) * Qc_of_Z 100
           * (Qc_of_nat (S n) * Qc_of_nat n))%Qc
    with (Qc_of_nat w * Qc_of_Z 100 * Qc_of_nat n)%Qc by (by field).
  replace (Qc_of_nat w / Qc_of_nat n * Qc_of_Z 100
           * (Qc_of_nat (S n) * Qc_of_nat n))%Qc
    with (Qc_of_nat w * Qc_of_Z 100 * Qc_of_nat (S n))%Qc by (by field).
  apply Qcmult_lt_mono_pos_l; [|done].
  by apply Qcmult_pos_pos.
Qed.

(** C10: a fill whose [closedPnl] could not be read stays among the closing
    fills (the denominator of the win rate) and is not a win, so whenever
    there is a win, the win rate with that fill is lower than the win rate of
    the same fills without it. *)
Theorem malformed_closedPnl_lowers_win_rate (parse_float : string → option Qc)
    (r : RawFill) (F : list Fill) :
  to_numeric parse_float (raw_closedPnl r) = None →
  let f := normalize_fill parse_float r in
  closed_trades (f :: F) = f :: closed_trades F
  ∧ wins (f :: F) = wins F
  ∧ (wins F ≠ [] → (win_rate (f :: F) < win_rate F)%Qc).
Proof.
  intros Hnan f.
  assert (fill_closedPnl f = None) as Hf by done.
  assert (closed_trades (f :: F) = f :: closed_trades F) as Hclosed.
  { unfold closed_trades. rewrite filter_cons_True; [done|]. by rewrite Hf. }
  assert (wins (f :: F) = wins F) as Hwins.
  { rewrite !wins_filter. rewrite filter_cons_False; [done|].
    rewrite Hf. intros []. }
  split; [exact Hclosed|]. split; [exact Hwins|].
  intros Hw. unfold win_rate. rewrite Hwins, Hclosed.
  assert (0 < length (wins F))%nat as Hlw.
  { destruct (wins F); [done|]. simpl. lia. }
  assert (length (wins F) ≤ length (closed_trades F))%nat as Hle.
  { unfold wins. apply length_filter. }
  rewrite !bool_decide_true by (simpl; lia).
  cbn [length]. apply rate_drops; lia.
Qed.

Lemma malformed_closedPnl_lowers_win_rate_witness :
  let r := raw_fill jan2 "n/a" "1" in
  let F := [normalize_fill parse_decimal (raw_fill jan1 "10" "1")] in
  to_numeric parse_decimal (raw_closedPnl r) = None
  ∧ win_rate F = Qc_of_Z 100
  ∧ win_rate (normalize_fill parse_decimal r :: F) = Qc_of_Z 50
  ∧ (win_rate (normalize_fill parse_decimal r :: F) < win_rate F)%Qc.
Proof.
  intros r F.
  assert (to_numeric parse_decimal (raw_closedPnl r) = None) as Hnan
    by (by vm_compute).
  assert (wins F ≠ []) as Hw.
  { intros Hnil. apply (f_equal length) in Hnil. vm_compute in Hnil.
    discriminate Hnil. }
  split; [exact Hnan|].
  split; [by_evaluation|].
  split; [by_evaluation|].
  exact (proj2 (proj2
           (malformed_closedPnl_lowers_win_rate parse_decimal r F Hnan)) Hw).
Defined.

Lemma process_data_fills parse_float rows funding :
  rows ≠ [] →
  (process_data parse_float (Some rows) funding).1
  = normalize_fill parse_float <$> rows.
Proof. by destruct rows. Qed.






(** ** Missing fills *)

(** C6: when the raw fills are empty or absent, [process_data] returns two
    empty frames whatever the raw funding holds; the aggregate of these
    frames has no row, and the page, which does not reach the aggregation
    then, shows no table. *)
Theorem no_fills_no_data (parse_float : string → option Qc)
    (raw_fills : option (list RawFill))
    (raw_funding : option (list RawFunding)) :
  truthy raw_fills = false →
  let out := process_data parse_float raw_fills raw_funding in
  out = ([], [])
  ∧ daily_combined out.1 out.2 = []
  ∧ shown (render parse_float raw_fills raw_funding) = None.
Proof.
  intros Hfalsy out. subst out. unfold process_data, render.
  by rewrite Hfalsy.
Qed.

(** Scenario B of the specification: no fills, one funding payment. *)
Lemma no_fills_no_data_witness :
  truthy (Some ([] : list RawFill)) = false
  ∧ truthy (Some scenario_A_funding) = true
  ∧ process_data parse_decimal (Some []) (Some scenario_A_funding) = ([], [])
  ∧ shown (render parse_decimal (Some []) (Some scenario_A_funding)) = None.
Proof.
  split; [reflexivity|]. split; [reflexivity|].
  pose proof (no_fills_no_data parse_decimal (Some [])
                (Some scenario_A_funding) eq_refl) as (H1 & _ & H3).
  split; [exact H1|exact H3].
Defined.

(** ** The data source client *)

(** C8: when the fills call or the funding call raises or answers with a
    status other than 200, the client reports one error and returns no data
    for both streams, and the page shows no metrics and no table. *)
Theorem fetch_all_or_nothing (parse_float : string → option Qc)
    (net : transport) (now_ms : Z) (address : string) :
  call_failed (post_userFills net address)
  ∨ call_failed (post_userFunding net address (now_ms - 180 * ms_per_day)) →
  let res := fetch_hyperliquid_data net now_ms address in
  res.2 = (None, None)
  ∧ (∃ text, res.1 = [st_error text])
  ∧ shown (load parse_float net now_ms address) = None.
Proof.
  intros Hfail res.
  assert (res.2 = (None, None) ∧ ∃ text, res.1 = [st_error text]) as [H2 H1].
  { subst res. unfold fetch_hyperliquid_data.
    destruct (post_userFills net address) as [e1|s1 b1];
      [split; [done|by eexists]|].
    destruct (post_userFunding net address _) as [e2|s2 b2];
      [split; [done|by eexists]|].
    simpl in Hfail.
    rewrite (orb_true_intro (bool_decide (s1 ≠ 200)) (bool_decide (s2 ≠ 200)))
      by (destruct Hfail; [left|right]; by apply bool_decide_eq_true).
    split; [done|by eexists]. }
  split; [exact H2|]. split; [exact H1|].
  unfold load. fold res. destruct res as [errors [raw_fills raw_funding]].
  simpl in H2. by injection H2 as -> ->.
Qed.

Lemma fetch_all_or_nothing_witness :
  let address := "0x0000000000000000000000000000000000000000" in
  call_failed (post_userFunding scenario_D address (jan2 - 180 * ms_per_day))
  ∧ (fetch_hyperliquid_data scenario_D jan2 address).2 = (None, None)
  ∧ shown (load parse_decimal scenario_D jan2 address) = None.
Proof.
  intros address.
  assert (call_failed
            (post_userFunding scenario_D address (jan2 - 180 * ms_per_day)))
    as Hfail by (simpl; lia).
  split; [exact Hfail|].
  pose proof (fetch_all_or_nothing parse_decimal scenario_D jan2 address
                (or_intror Hfail)) as (H1 & _ & H3).
  split; [exact H1|exact H3].
Defined.

(** * Further properties of the pipeline *)

(** ** What the aggregate depends on *)

Lemma Sorted_joined_keys F G : StronglySorted Z.le (joined_keys F G).
Proof.
  unfold joined_keys, group_keys.
  destruct (negb (empty G)); apply StronglySorted_merge_sort; apply _.
Qed.

(** Two ascending duplicate-free key columns with the same dates are equal. *)
Lemma joined_keys_ext F F' G G' :
  (∀ d, Some d ∈ fill_date <$> F ∨ Some d ∈ fund_date <$> G
        ↔ Some d ∈ fill_date <$> F' ∨ Some d ∈ fund_date <$> G') →
  joined_keys F G = joined_keys F' G'.
Proof.
  intros Hiff. apply (StronglySorted_unique Z.le); try apply Sorted_joined_keys.
  apply NoDup_Permutation; try apply NoDup_joined_keys.
  intros d. by rewrite !elem_of_joined_keys.
Qed.

Lemma daily_combined_ext_dates F F' G G' :
  (∀ d, Some d ∈ fill_date <$> F ∨ Some d ∈ fund_date <$> G
        ↔ Some d ∈ fill_date <$> F' ∨ Some d ∈ fund_date <$> G') →
  (∀ d, day_of F G d = day_of F' G' d) →
  daily_combined F G = daily_combined F' G'.
Proof.
  intros Hiff Hday. unfold daily_combined.
  rewrite !joined_rows, (joined_keys_ext F F' G G' Hiff).
  by rewrite (list_fmap_ext (day_of F G) (day_of F' G') _ (λ _ d _, Hday d)).
Qed.

Lemma fills_on_dated F d : fills_on (dated_fills F) d = fills_on F d.
Proof.
  unfold fills_on, dated_fills. rewrite list_filter_filter.
  apply list_filter_iff. intros f. split; [tauto|].
  intros Hd. split; [done|]. by rewrite Hd.
Qed.

Lemma funding_on_dated G d : funding_on (dated_funding G) d = funding_on G d.
Proof.
  unfold funding_on, dated_funding. rewrite list_filter_filter.
  apply list_filter_iff. intros p. split; [tauto|].
  intros Hd. split; [done|]. by rewrite Hd.
Qed.

Lemma elem_of_dated_fills F d :
  Some d ∈ fill_date <$> dated_fills F ↔ Some d ∈ fill_date <$> F.
Proof.
  unfold dated_fills. rewrite !list_elem_of_fmap. split.
  - intros (f & Hd & [_ Hf]%list_elem_of_filter). eauto.
  - intros (f & Hd & Hf). exists f. split; [done|].
    apply list_elem_of_filter. split; [|done]. by rewrite <- Hd.
Qed.

Lemma elem_of_dated_funding G d :
  Some d ∈ fund_date <$> dated_funding G ↔ Some d ∈ fund_date <$> G.
Proof.
  unfold dated_funding. rewrite !list_elem_of_fmap. split.
  - intros (p & Hd & [_ Hp]%list_elem_of_filter). eauto.
  - intros (p & Hd & Hp). exists p. split; [done|].
    apply list_elem_of_filter. split; [|done]. by rewrite <- Hd.
Qed.

Lemma daily_combined_dated F G :
  daily_combined F G = daily_combined (dated_fills F) (dated_funding G).
Proof.
  apply daily_combined_ext_dates.
  - intros d. by rewrite elem_of_dated_fills, elem_of_dated_funding.
  - intros d. unfold day_of. by rewrite !fills_on_dated, funding_on_dated.
Qed.

Lemma daily_combined_date_keys F G :
  date <$> daily_combined F G = joined_keys F G.
Proof.
  apply (StronglySorted_unique Z.le).
  - rewrite daily_combined_date.
    apply (StronglySorted_fmap _ by_date); [done|].
    apply StronglySorted_merge_sort; apply _.
  - apply Sorted_joined_keys.
  - apply daily_combined_dates_perm.
Qed.

(** X1: the days of the daily table, in their order, and so the number of
    its rows, do not depend on the order in which the service lists the
    fills and the funding payments. *)
Theorem daily_dates_order_insensitive (F F' : list Fill)
    (G G' : list Funding) :
  F ≡ₚ F' → G ≡ₚ G' →
  date <$> daily_combined F G = date <$> daily_combined F' G'
  ∧ length (daily_combined F G) = length (daily_combined F' G').
Proof.
  intros HF HG.
  assert (date <$> daily_combined F G = date <$> daily_combined F' G') as Hd.
  { rewrite !daily_combined_date_keys. apply joined_keys_ext.
    intros d. by rewrite HF, HG. }
  split; [exact Hd|].
  by rewrite <- (length_fmap date), Hd, length_fmap.
Qed.

Lemma daily_dates_order_insensitive_witness :
  A_fills ≡ₚ reverse A_fills
  ∧ date <$> daily_combined A_fills A_funding
    = date <$> daily_combined (reverse A_fills) A_funding.
Proof.
  assert (A_fills ≡ₚ reverse A_fills) as HF
    by (symmetry; apply reverse_Permutation).
  split; [exact HF|].
  exact (proj1 (daily_dates_order_insensitive A_fills (reverse A_fills)
                  A_funding A_funding HF (reflexivity A_funding))).
Defined.

(** X2: the win rate does not depend on the order of the fills: the two
    counts it divides are the same for any reordering, and so are its exact
    value and its binary64 value. *)
Theorem win_rate_order_insensitive (F F' : list Fill) :
  F ≡ₚ F' →
  length (closed_trades F) = length (closed_trades F')
  ∧ length (wins F) = length (wins F')
  ∧ win_rate F = win_rate F'
  ∧ win_rate_b64 F = win_rate_b64 F'.
Proof.
  intros HF.
  assert (length (closed_trades F) = length (closed_trades F')) as Hc
    by (apply Permutation_length; unfold closed_trades; by rewrite HF).
  assert (length (wins F) = length (wins F')) as Hw
    by (apply Permutation_length; unfold wins, closed_trades; by rewrite HF).
  split; [exact Hc|]. split; [exact Hw|].
  unfold win_rate, win_rate_b64. by rewrite Hc, Hw.
Qed.

Lemma win_rate_order_insensitive_witness :
  scenario_C ≡ₚ reverse scenario_C
  ∧ win_rate_b64 scenario_C = win_rate_b64 (reverse scenario_C).
Proof.
  assert (scenario_C ≡ₚ reverse scenario_C) as HF
    by (symmetry; apply reverse_Permutation).
  split; [exact HF|].
  exact (proj2 (proj2 (proj2
           (win_rate_order_insensitive scenario_C (reverse scenario_C) HF)))).
Defined.

(** ** The range of the win rate *)

Lemma Qc_of_nat_le (m n : nat) : (m ≤ n)%nat → (Qc_of_nat m ≤ Qc_of_nat n)%Qc.
Proof.
  intros H. unfold Qcle, Qc_of_nat. simpl. rewrite <- Zle_Qle. lia.
Qed.

Lemma rate_range (w n : nat) :
  (0 < n)%nat → (w ≤ n)%nat →
  let rate := (Qc_of_nat w / Qc_of_nat n * Qc_of_Z 100)%Qc in
  (0 ≤ rate)%Qc ∧ (rate ≤ Qc_of_Z 100)%Qc
  ∧ (rate = 0%Qc ↔ w = 0%nat) ∧ (rate = Qc_of_Z 100 ↔ w = n).
Proof.
  intros Hn Hwn rate.
  pose proof (Qc_of_nat_pos n Hn) as Hb.
  pose proof (Qc_of_nat_le w n Hwn) as Hab.
  assert (0 ≤ Qc_of_nat w)%Qc as Ha
    by (rewrite <- Qc_of_nat_0; apply Qc_of_nat_le; lia).
  assert (0 < Qc_of_Z 100)%Qc as Hc by done.
  assert (Qc_of_nat n ≠ 0%Qc) as Hb0 by (by apply Qclt_not_eq in Hb).
  assert (rate * Qc_of_nat n = Qc_of_nat w * Qc_of_Z 100)%Qc as Hrate
    by (subst rate; by field).
  assert (0 ≤ rate)%Qc as Hlo.
  { subst rate. unfold Qcdiv.
    apply Qcmult_nonneg_nonneg; [|by apply Qclt_le_weak].
    apply Qcmult_nonneg_nonneg; [done|].
    by apply Qclt_le_weak, Qcinv_pos. }
  assert (rate ≤ Qc_of_Z 100)%Qc as Hhi.
  { apply (Qcmult_le_mono_pos_r _ _ (Qc_of_nat n)); [done|].
    rewrite Hrate, (Qcmult_comm (Qc_of_nat w)).
    apply Qcmult_le_mono_nonneg_l; [by apply Qclt_le_weak|done]. }
  split; [exact Hlo|]. split; [exact Hhi|]. split.
  - split.
    + intros H0. destruct w as [|w]; [done|]. exfalso.
      assert (0 < Qc_of_nat (S w) * Qc_of_Z 100)%Qc as Hpos
        by (apply Qcmult_pos_pos; [apply Qc_of_nat_pos; lia|done]).
      rewrite <- Hrate, H0, Qcmult_0_l in Hpos. by apply Qclt_not_eq in Hpos.
    + intros ->. subst rate. rewrite Qc_of_nat_0. unfold Qcdiv. ring.
  - split.
    + intros H100. destruct (decide (w = n)) as [|Hne]; [done|]. exfalso.
      assert (Qc_of_nat w < Qc_of_nat n)%Qc as Hlt
        by (apply Qc_of_nat_lt; lia).
      apply (Qcmult_lt_mono_pos_l _ _ (Qc_of_Z 100) Hc) in Hlt.
      rewrite (Qcmult_comm _ (Qc_of_nat w)), <- Hrate, H100 in Hlt.
      by apply Qclt_not_eq in Hlt.
    + intros ->. subst rate. by field.
Qed.

Lemma length_filter_all {A} (P : A → Prop) `{!∀ x, Decision (P x)}
    (l : list A) :
  length (filter P l) = length l ↔ Forall P l.
Proof.
  induction l as [|x l IH]; [by split|].
  rewrite filter_cons. pose proof (length_filter P l) as Hle.
  destruct (decide (P x)) as [HP|HP]; simpl.
  - rewrite Forall_cons. split.
    + intros [= Hl]. split; [done|]. by apply IH.
    + intros [_ Hl]. f_equal. by apply IH.
  - split; [lia|]. intros [? _]%Forall_cons. done.
Qed.

(** X4: the win rate lies between 0 and 100; it is 0 exactly when no fill is a
    win, and 100 exactly when some fill closed a position and every fill
    kept by the [closedPnl != 0] filter has a positive [closedPnl]. *)
Theorem win_rate_range (F : list Fill) :
  (0 ≤ win_rate F)%Qc ∧ (win_rate F ≤ Qc_of_Z 100)%Qc
  ∧ (win_rate F = 0%Qc ↔ wins F = [])
  ∧ (win_rate F = Qc_of_Z 100
     ↔ closed_trades F ≠ []
       ∧ Forall (λ f, gt0 (fill_closedPnl f)) (closed_trades F)).
Proof.
  assert (length (wins F) ≤ length (closed_trades F))%nat as Hle
    by apply length_filter.
  unfold win_rate. case_bool_decide as Hn.
  - destruct (rate_range _ _ Hn Hle) as (Hlo & Hhi & H0 & H100).
    split; [exact Hlo|]. split; [exact Hhi|]. split.
    + rewrite H0. split; [apply length_zero_iff_nil|by intros ->].
    + rewrite H100. unfold wins at 1. rewrite length_filter_all.
      split; [intros HF|tauto]. split; [|done].
      intros Hnil. rewrite Hnil in Hn. simpl in Hn. lia.
  - assert (closed_trades F = []) as Hnil.
    { destruct (closed_trades F); [done|]. simpl in Hn. lia. }
    split; [done|]. split; [done|]. split.
    + split; [|done]. intros _. unfold wins. by rewrite Hnil.
    + split; [|tauto]. intros H. exfalso.
      by apply (f_equal (λ q, bool_decide (q = 0%Qc))) in H.
Qed.

(** X5: a fill with [closedPnl] 0, one that opened or added to a position,
    leaves the win rate as it is without that fill. *)
Theorem win_rate_ignores_opening_fill (before after : list Fill) (f : Fill) :
  fill_closedPnl f = Some 0%Qc →
  win_rate (before ++ f :: after) = win_rate (before ++ after).
Proof.
  intros Hf.
  assert (closed_trades (before ++ f :: after) = closed_trades (before ++ after))
    as Hclosed.
  { unfold closed_trades. rewrite !filter_app, filter_cons_False; [done|].
    unfold ne0. rewrite Hf. tauto. }
  unfold win_rate, wins. by rewrite Hclosed.
Qed.

Lemma win_rate_ignores_opening_fill_witness :
  let f := fill_of_pnl (Some 0%Qc) in
  let F := fill_of_pnl <$> [num 10; num (-5)] in
  fill_closedPnl f = Some 0%Qc
  ∧ win_rate (F ++ f :: F) = win_rate (F ++ F).
Proof.
  intros f F. split; [reflexivity|].
  exact (win_rate_ignores_opening_fill F F f eq_refl).
Defined.

(** ** The client and the page *)

(** The pair of replies on which the fetch succeeds with given bodies. *)
Lemma fetch_success net now_ms address fills_data funding_data :
  post_userFills net address = Response 200 (Json fills_data) →
  post_userFunding net address (now_ms - 180 * ms_per_day)
  = Response 200 (Json funding_data) →
  fetch_hyperliquid_data net now_ms address = ([], (fills_data, funding_data)).
Proof. intros H1 H2. unfold fetch_hyperliquid_data. by rewrite H1, H2. Qed.

Lemma fetch_cases net now_ms address :
  (∃ fills_data funding_data,
     post_userFills net address = Response 200 (Json fills_data)
     ∧ post_userFunding net address (now_ms - 180 * ms_per_day)
       = Response 200 (Json funding_data)
     ∧ fetch_hyperliquid_data net now_ms address
       = ([], (fills_data, funding_data)))
  ∨ (∃ text,
       fetch_hyperliquid_data net now_ms address
       = ([st_error text], (None, None))).
Proof.
  unfold fetch_hyperliquid_data.
  destruct (post_userFills net address) as [e1|s1 b1]; [right; by eexists|].
  destruct (post_userFunding net address _) as [e2|s2 b2];
    [right; by eexists|].
  destruct (decide (s1 = 200)) as [->|H1];
    [|rewrite (bool_decide_true (s1 ≠ 200)) by done; right; by eexists].
  destruct (decide (s2 = 200)) as [->|H2];
    [|rewrite (bool_decide_true (s2 ≠ 200)), orb_true_r by done;
      right; by eexists].
  destruct b1 as [e1|f]; [right; by eexists|].
  destruct b2 as [e2|g]; [right; by eexists|].
  left. by exists f, g.
Qed.

(** X6: there is one funding request whose reply, with the reply to the
    fills request, decides the fetch: the two decoded bodies are returned
    without any message exactly when both answer 200 with a body that
    decodes; in every other case, a body that does not decode included, one
    error is reported and no data are returned for either stream. *)
Theorem fetch_success_iff (net : transport) (now_ms : Z) (address : string) :
  ∃ start_time,
    (∀ fills_data funding_data,
       fetch_hyperliquid_data net now_ms address
       = ([], (fills_data, funding_data))
       ↔ post_userFills net address = Response 200 (Json fills_data)
         ∧ post_userFunding net address start_time
           = Response 200 (Json funding_data))
    ∧ ((fetch_hyperliquid_data net now_ms address).1 = []
       ∨ ∃ text, fetch_hyperliquid_data net now_ms address
                 = ([st_error text], (None, None))).
Proof.
  exists (now_ms - 180 * ms_per_day). split.
  - intros fills_data funding_data. split.
    + intros Hfetch.
      destruct (fetch_cases net now_ms address)
        as [(f & g & H1 & H2 & Hok)|[text Herr]]; [|congruence].
      rewrite Hok in Hfetch. by injection Hfetch as <- <-.
    + intros [H1 H2]. by apply fetch_success.
  - destruct (fetch_cases net now_ms address)
      as [(f & g & _ & _ & ->)|[text Herr]]; [by left|right; eauto].
Qed.

Lemma daily_combined_nil_iff F G :
  daily_combined F G = [] ↔ dated_fills F = [] ∧ dated_funding G = [].
Proof.
  split.
  - intros Hnil.
    assert (∀ d, ¬ (Some d ∈ fill_date <$> F ∨ Some d ∈ fund_date <$> G))
      as Hno.
    { intros d Hd. apply elem_of_daily_combined_date in Hd.
      rewrite Hnil in Hd. by apply elem_of_nil in Hd. }
    split.
    + destruct (dated_fills F) as [|f F'] eqn:HF; [done|]. exfalso.
      assert (f ∈ dated_fills F) as [[d Hd] Hf]%list_elem_of_filter
        by (rewrite HF; left).
      apply (Hno d). left. rewrite <- Hd. by apply list_elem_of_fmap_2.
    + destruct (dated_funding G) as [|p G'] eqn:HG; [done|]. exfalso.
      assert (p ∈ dated_funding G) as [[d Hd] Hp]%list_elem_of_filter
        by (rewrite HG; left).
      apply (Hno d). right. rewrite <- Hd. by apply list_elem_of_fmap_2.
  - intros [HF HG]. rewrite daily_combined_dated, HF, HG. done.
Qed.

(** X7: a load ends in one of three ways.  After a fetch that succeeded with
    at least one fill the dashboard is shown, with the warning "No PnL
    history found." when no fill and no funding payment has a date and with
    no message otherwise.  After a fetch that succeeded without fills
    nothing is shown but the warning "No data found for this address.".
    After a failed fetch nothing is shown but its error followed by that
    same warning. *)
Theorem load_messages (parse_float : string → option Qc) (net : transport)
    (now_ms : Z) (address : string) :
  let p := load parse_float net now_ms address in
  let no_data := st_warning "No data found for this address." in
  (∃ fills_data funding_data df_fills df_funding,
     fetch_hyperliquid_data net now_ms address
     = ([], (Some fills_data, funding_data))
     ∧ fills_data ≠ []
     ∧ process_data parse_float (Some fills_data) funding_data
       = (df_fills, df_funding)
     ∧ shown p = Some (metrics df_fills df_funding,
                       daily_combined df_fills df_funding)
     ∧ messages p
       = match dated_fills df_fills, dated_funding df_funding with
         | [], [] => [st_warning "No PnL history found."]
         | _, _ => []
         end)
  ∨ (∃ fills_data funding_data,
       fetch_hyperliquid_data net now_ms address
       = ([], (fills_data, funding_data))
       ∧ truthy fills_data = false
       ∧ messages p = [no_data] ∧ shown p = None)
  ∨ (∃ text,
       fetch_hyperliquid_data net now_ms address
       = ([st_error text], (None, None))
       ∧ messages p = [st_error text; no_data] ∧ shown p = None).
Proof.
  intros p no_data. subst p. unfold load.
  destruct (fetch_cases net now_ms address)
    as [(f & g & _ & _ & Hok)|[text Herr]].
  - rewrite Hok. destruct (truthy f) eqn:Hf.
    + left. destruct f as [[|r rows]|]; try done.
      destruct (process_data parse_float (Some (r :: rows)) g)
        as [df_fills df_funding] eqn:Hdf.
      exists (r :: rows), g, df_fills, df_funding.
      split; [done|]. split; [done|]. split; [done|].
      unfold render. simpl truthy. cbv iota. rewrite Hdf.
      split; [done|]. cbn [messages app].
      destruct (daily_combined df_fills df_funding) as [|row table] eqn:Hrows.
      * by apply daily_combined_nil_iff in Hrows as [-> ->].
      * destruct (dated_fills df_fills) eqn:HF;
          destruct (dated_funding df_funding) eqn:HG; try done.
        exfalso. assert (daily_combined df_fills df_funding = []) as Hnil
          by (by apply daily_combined_nil_iff).
        by rewrite Hnil in Hrows.
    + right; left. exists f, g. split; [done|]. split; [done|].
      unfold render. by rewrite Hf.
  - right; right. exists text. by rewrite Herr.
Qed.

(** ** Calendar days *)

Lemma date_of_ms_window (ms d : Z) :
  date_of_ms ms = d ↔ d * 86400000 ≤ ms < (d + 1) * 86400000.
Proof.
  unfold date_of_ms, ms_per_day.
  pose proof (Z.div_mod ms 86400000 ltac:(lia)) as Hdm.
  pose proof (Z.mod_pos_bound ms 86400000 ltac:(lia)) as Hb.
  split; [intros <-; lia|].
  intros Hw. symmetry.
  apply (Z.div_unique_pos ms 86400000 d (ms - d * 86400000)); lia.
Qed.

Lemma process_data_funding parse_float rows funding :
  rows ≠ [] →
  (process_data parse_float (Some rows) funding).2
  = normalize_funding parse_float <$> default [] funding.
Proof. destruct rows; [done|]. by destruct funding as [[|g G]|]. Qed.

(** X8: from the raw events to the rows of the daily table: a day has a row
    exactly when some fill or some funding payment carries a timestamp
    within that day, counted in whole days of 86400000 ms from the epoch. *)
Theorem chart_days (parse_float : string → option Qc) (fills : list RawFill)
    (funding : option (list RawFunding)) (d : Z) :
  fills ≠ [] →
  let out := process_data parse_float (Some fills) funding in
  d ∈ date <$> daily_combined out.1 out.2
  ↔ (∃ r t, r ∈ fills ∧ raw_time r = Some t
            ∧ d * 86400000 ≤ t < (d + 1) * 86400000)
    ∨ (∃ g t, g ∈ default [] funding ∧ rawf_time g = Some t
              ∧ d * 86400000 ≤ t < (d + 1) * 86400000).
Proof.
  intros Hne out. subst out.
  rewrite elem_of_daily_combined_date.
  rewrite process_data_fills, process_data_funding by done.
  rewrite <- !list_fmap_compose, !list_elem_of_fmap.
  split; (intros [H|H]; [left|right]).
  - destruct H as (r & Hd & Hr). simpl in Hd.
    destruct (raw_time r) as [t|] eqn:Ht; [|done].
    exists r, t. injection Hd as Hd. symmetry in Hd.
    by apply date_of_ms_window in Hd.
  - destruct H as (g & Hd & Hg). simpl in Hd.
    destruct (rawf_time g) as [t|] eqn:Ht; [|done].
    exists g, t. injection Hd as Hd. symmetry in Hd.
    by apply date_of_ms_window in Hd.
  - destruct H as (r & t & Hr & Ht & Hw). exists r. split; [|done].
    simpl. rewrite Ht. simpl. f_equal. symmetry. by apply date_of_ms_window.
  - destruct H as (g & t & Hg & Ht & Hw). exists g. split; [|done].
    simpl. rewrite Ht. simpl. f_equal. symmetry. by apply date_of_ms_window.
Qed.

Lemma chart_days_witness :
  scenario_A_fills ≠ []
  ∧ 19724 ∈ date <$> daily_combined A_fills A_funding.
Proof.
  assert (scenario_A_fills ≠ []) as Hne by done.
  split; [exact Hne|].
  apply (chart_days parse_decimal scenario_A_fills (Some scenario_A_funding)
           19724 Hne).
  left. exists (raw_fill jan2 "-50" "1"), jan2.
  split; [unfold scenario_A_fills; right; left|].
  split; [reflexivity|]. unfold jan2. lia.
Defined.

(** ** The tabs *)

Lemma NoDup_fmap_eq {A B} (f : A → B) (l : list A) (x y : A) :
  NoDup (f <$> l) → x ∈ l → y ∈ l → f x = f y → x = y.
Proof.
  induction l as [|z l IH]; intros Hnd Hx Hy Hxy; [by apply elem_of_nil in Hx|].
  rewrite fmap_cons in Hnd. apply NoDup_cons in Hnd as [Hz Hnd].
  apply elem_of_cons in Hx as [->|Hx]; apply elem_of_cons in Hy as [->|Hy].
  - done.
  - exfalso. apply Hz. rewrite Hxy. by apply list_elem_of_fmap_2.
  - exfalso. apply Hz. rewrite <- Hxy. by apply list_elem_of_fmap_2.
  - by apply IH.
Qed.

Lemma Sorted_of_fmap {A} (f : A → Z) (l : list A) :
  StronglySorted Z.lt (f <$> l) → Sorted (λ a b, f a ≤ f b) l.
Proof.
  intros Hs. apply StronglySorted_Sorted.
  induction l as [|x l IH]; [constructor|].
  rewrite fmap_cons in Hs. apply StronglySorted_inv in Hs as [Hs Hx].
  constructor; [by apply IH|].
  rewrite Forall_fmap in Hx. eapply Forall_impl; [exact Hx|].
  simpl. intros y Hy. lia.
Qed.

Global Instance by_date_desc_trans : Transitive by_date_desc.
Proof. intros a b c. unfold by_date_desc. lia. Qed.

Global Instance by_date_desc_total : Total by_date_desc.
Proof. intros a b. unfold by_date_desc. lia. Qed.

(** X10: the second tab is absent for an empty table; otherwise its bars follow
    the table and its daily breakdown is the table in reverse, latest day
    first. *)
Theorem tab2_latest_first (F : list Fill) (G : list Funding) :
  tab2 (daily_combined F G)
  = if daily_combined F G is [] then None
    else Some ((λ r, (date r, daily_net_pnl r)) <$> daily_combined F G,
               reverse (daily_combined F G)).
Proof.
  unfold tab2. destruct (daily_combined F G) as [|r rows] eqn:Hrows; [done|].
  cbn [empty negb]. do 2 f_equal. rewrite <- Hrows.
  apply (Sorted_unique_strong by_date_desc).
  - intros x1 x2 H1 H2 H12 H21.
    rewrite merge_sort_Permutation in H1. rewrite reverse_Permutation in H2.
    apply (NoDup_fmap_eq date (daily_combined F G)); try done.
    + rewrite daily_combined_dates_perm. apply NoDup_joined_keys.
    + unfold by_date_desc in *. lia.
  - apply Sorted_merge_sort; apply _.
  - apply (Sorted_reverse (λ a b, date a ≤ date b)).
    apply Sorted_of_fmap, daily_combined_sorted.
  - by rewrite merge_sort_Permutation, reverse_Permutation.
Qed.

Lemma pnl_style_cases (x : option Qc) :
  (pnl_style x = "color: green" ↔ gt0 x)
  ∧ (pnl_style x = "color: red" ↔ lt0 x)
  ∧ (pnl_style x = "color: gray" ↔ x = Some 0%Qc ∨ x = None).
Proof.
  unfold pnl_style.
  destruct x as [q|]; simpl.
  - destruct (decide (0 < q)%Qc) as [Hpos|Hnpos].
    + split; [done|]. split.
      * split; [done|]. intros Hneg. exfalso.
        apply (Qclt_not_le _ _ Hpos). by apply Qclt_le_weak.
      * split; [done|]. intros [[= ->]|[=]]. by apply Qclt_not_eq in Hpos.
    + destruct (decide (q < 0)%Qc) as [Hneg|Hnneg].
      * split; [done|]. split; [done|]. split; [done|].
        intros [[= ->]|[=]]. by apply Qclt_not_eq in Hneg.
      * split; [done|]. split; [done|]. split; [|done]. intros _. left.
        f_equal. apply Qcle_antisym; by apply Qcnot_lt_le.
  - destruct (decide False) as [[]|_]. split; [done|]. split; [done|].
    split; [|done]. by right.
Qed.

Lemma lt0_ne0 x : lt0 x → ne0 x.
Proof.
  destruct x as [q|]; [|done]. intros Hq [= ->]. by apply Qclt_not_eq in Hq.
Qed.

Lemma tab3_cons f F :
  tab3 (f :: F) = (trade_row f, pnl_style (fill_closedPnl f)) :: tab3 F.
Proof. reflexivity. Qed.

Lemma tab3_green_wins F :
  length (filter (λ p, p.2 = "color: green") (tab3 F)) = length (wins F).
Proof.
  rewrite wins_filter. induction F as [|f F IH]; [done|].
  rewrite tab3_cons, !filter_cons. cbn [fst snd].
  destruct (pnl_style_cases (fill_closedPnl f)) as (Hg & _ & _).
  repeat case_decide; simpl; rewrite ?IH; tauto || done.
Qed.

Lemma closed_trades_by_style F :
  length (closed_trades F)
  = (length (filter (λ p, p.2 = "color: green") (tab3 F))
     + length (filter (λ p, p.2 = "color: red") (tab3 F))
     + length (filter (λ p, PnL p.1 = None) (tab3 F)))%nat.
Proof.
  unfold closed_trades. induction F as [|f F IH]; [done|].
  rewrite tab3_cons, !filter_cons. cbn [fst snd PnL trade_row].
  destruct (pnl_style_cases (fill_closedPnl f)) as (Hg & Hr & Hy).
  destruct (fill_closedPnl f) as [q|] eqn:Hq.
  - rewrite (decide_False (P := Some q = None)) by done.
    destruct (decide (gt0 (Some q))) as [Hpos|Hnpos].
    { rewrite (decide_True (P := ne0 (Some q))) by (by apply gt0_ne0).
      rewrite (proj2 Hg Hpos). simpl. rewrite IH. lia. }
    destruct (decide (lt0 (Some q))) as [Hneg|Hnneg].
    { rewrite (decide_True (P := ne0 (Some q))) by (by apply lt0_ne0).
      rewrite (proj2 Hr Hneg). simpl. rewrite IH. lia. }
    assert (pnl_style (Some q) = "color: gray") as Hgray.
    { unfold pnl_style. by rewrite !decide_False. }
    destruct (proj1 Hy Hgray) as [[= ->]|[=]].
    rewrite (decide_False (P := ne0 (Some 0%Qc))) by (intros H; by apply H).
    rewrite Hgray. simpl. rewrite IH. lia.
  - rewrite (decide_True (P := ne0 None)) by done.
    rewrite (decide_True (P := None = None)) by done.
    rewrite (proj2 Hy (or_intror eq_refl)). simpl. rewrite IH. lia.
Qed.

(** X11: the trade log has one row per fill, in the order of the fills; a [PnL]
    cell is green exactly when positive, red exactly when negative and gray
    exactly when 0 or missing; the green rows are as many as the wins of the
    win rate, and the fills the win rate divides by are the green rows, the
    red rows and the rows whose [PnL] is missing, which are shown gray. *)
Theorem trade_log_styles (F : list Fill) :
  fst <$> tab3 F = trade_row <$> F
  ∧ Forall (λ p,
      (p.2 = "color: green" ↔ gt0 (PnL p.1))
      ∧ (p.2 = "color: red" ↔ lt0 (PnL p.1))
      ∧ (p.2 = "color: gray" ↔ PnL p.1 = Some 0%Qc ∨ PnL p.1 = None))
      (tab3 F)
  ∧ length (filter (λ p, p.2 = "color: green") (tab3 F)) = length (wins F)
  ∧ length (closed_trades F)
    = (length (filter (λ p, p.2 = "color: green") (tab3 F))
       + length (filter (λ p, p.2 = "color: red") (tab3 F))
       + length (filter (λ p, PnL p.1 = None) (tab3 F)))%nat.
Proof.
  split; [|split; [|split]].
  - unfold tab3, display_df. rewrite <- !list_fmap_compose.
    by apply list_fmap_ext.
  - unfold tab3. apply Forall_fmap, Forall_forall. intros r _. simpl.
    apply pnl_style_cases.
  - apply tab3_green_wins.
  - apply closed_trades_by_style.
Qed.

(** ** The session *)

Lemma script_state parse_float net now_ms state wallet_address pressed :
  (script parse_float net now_ms state wallet_address pressed).1
  = (sidebar state wallet_address pressed).1.
Proof.
  unfold script. destruct (sidebar state wallet_address pressed) as [s' msgs].
  destruct (ss_data_loaded s'); [destruct (ss_address s')|]; done.
Qed.

Lemma sidebar_ok state wallet_address pressed :
  session_ok state → session_ok (sidebar state wallet_address pressed).1.
Proof.
  intros Hok. unfold sidebar. destruct pressed; [|done].
  case_bool_decide as Hlen; [done|].
  simpl. exists wallet_address. split; [done|lia].
Qed.

Lemma session_after_ok runs : session_ok (session_after runs).
Proof.
  unfold session_after.
  assert (session_ok fresh_session) as Hfresh by done.
  revert Hfresh. generalize fresh_session.
  induction runs as [|r runs IH]; intros state Hok; [done|].
  simpl. apply IH. by apply sidebar_ok.
Qed.

(** X12: from a fresh session and through any sequence of runs, the script reads
    [st.session_state['address']] only when it is there, so no run ends with
    a [KeyError]; and the address the data are fetched for always has at
    least 42 characters. *)
Theorem script_never_raises (parse_float : string → option Qc)
    (net : transport) (now_ms : Z) (runs : list run) (wallet_address : string)
    (pressed : bool) :
  let state := session_after runs in
  session_ok state
  ∧ ∃ p, (script parse_float net now_ms state wallet_address pressed).2
         = Page p.
Proof.
  intros state. split; [apply session_after_ok|].
  pose proof (sidebar_ok state wallet_address pressed (session_after_ok runs))
    as Hok.
  unfold script. destruct (sidebar state wallet_address pressed) as [s' msgs].
  unfold session_ok in Hok. simpl in Hok.
  destruct (ss_data_loaded s'); [|by eexists].
  destruct Hok as (address & -> & _). by eexists.
Qed.

(** X13: pressing "Load Data" with fewer than 42 characters after an address was
    loaded reports the invalid format and leaves the session as it is: the
    run still fetches and shows the data of the address loaded before. *)
Theorem rejected_address_keeps_previous (parse_float : string → option Qc)
    (net : transport) (now_ms : Z) (state : session_state)
    (previous wallet_address : string) :
  ss_data_loaded state = true →
  ss_address state = Some previous →
  (String.length wallet_address < 42)%nat →
  script parse_float net now_ms state wallet_address true
  = (state,
     Page {| messages :=
               st_error "Invalid address format."
               :: messages (load parse_float net now_ms previous);
             shown := shown (load parse_float net now_ms previous) |}).
Proof.
  intros Hloaded Haddress Hshort. unfold script, sidebar.
  rewrite bool_decide_true by done. by rewrite Hloaded, Haddress.
Qed.

Lemma rejected_address_keeps_previous_witness :
  let state := session_after [{| typed := some_address; pressed_load := true |}] in
  ss_data_loaded state = true
  ∧ ss_address state = Some some_address
  ∧ (String.length "0x12" < 42)%nat
  ∧ (script parse_decimal scenario_D jan2 state "0x12" true).1 = state.
Proof.
  intros state.
  assert (ss_data_loaded state = true) as H1 by reflexivity.
  assert (ss_address state = Some some_address) as H2 by reflexivity.
  assert (String.length "0x12" < 42)%nat as H3 by (simpl; lia).
  split; [exact H1|]. split; [exact H2|]. split; [exact H3|].
  by rewrite (rejected_address_keeps_previous parse_decimal scenario_D jan2
                state some_address "0x12" H1 H2 H3).
Defined.

(** X14: until "Load Data" is pressed with at least 42 characters the session
    stays fresh and a run shows no data, whatever the service would answer:
    only the invalid-format error when the button was pressed. *)
Theorem nothing_shown_before_valid_address
    (parse_float : string → option Qc) (net : transport) (now_ms : Z)
    (runs : list run) (wallet_address : string) (pressed : bool) :
  Forall (λ r, pressed_load r = true → (String.length (typed r) < 42)%nat)
    runs →
  (pressed = true → (String.length wallet_address < 42)%nat) →
  session_after runs = fresh_session
  ∧ script parse_float net now_ms (session_after runs) wallet_address pressed
    = (fresh_session,
       Page {| messages :=
                 if pressed then [st_error "Invalid address format."] else [];
               shown := None |}).
Proof.
  intros Hruns Hnow.
  assert (session_after runs = fresh_session) as Hfresh.
  { unfold session_after. induction Hruns as [|r runs Hr _ IH]; [done|].
    simpl. unfold sidebar at 2. destruct (pressed_load r); [|done].
    by rewrite bool_decide_true by auto. }
  split; [exact Hfresh|]. rewrite Hfresh. unfold script, sidebar.
  destruct pressed; [|done]. by rewrite bool_decide_true by auto.
Qed.

Lemma nothing_shown_before_valid_address_witness :
  let runs := [{| typed := "0x12"; pressed_load := true |};
               {| typed := some_address; pressed_load := false |}] in
  Forall (λ r, pressed_load r = true → (String.length (typed r) < 42)%nat) runs
  ∧ session_after runs = fresh_session.
Proof.
  intros runs.
  assert (Forall (λ r, pressed_load r = true
                       → (String.length (typed r) < 42)%nat) runs) as Hruns.
  { repeat constructor; simpl; intros; (lia || done). }
  split; [exact Hruns|].
  exact (proj1 (nothing_shown_before_valid_address parse_decimal scenario_D
                  jan2 runs "" false Hruns (λ H, False_ind _ (diff_false_true H)))).
Defined.
